(** * BotBehavior: enemy selection and engagement decisions of a bot player

    A shallow embedding of [src/core/execution/utils/BotBehavior.ts].

    The controller's private fields ([enemy], [enemyUpdated], [random] and the
    three ratios) form an explicit state record that every method threads.
    The game and the controlled player are external objects the class only
    queries: one tick's answers are gathered in a read-only [World] snapshot.
    Executions handed to [game.addExecution] are appended to an explicit
    queue. *)

From Stdlib Require Import ZArith QArith Qround Qpower Zpower Bool List String.
From Stdlib Require Import Lia Lqa SpecFloat.
Import ListNotations.

(** ** JavaScript numbers

    Quantities supplied by the game (troop counts, capacities, ratios) are
    finite and are kept as rationals.  A division can leave the finite
    numbers, so its result lives in [Num.t], with the comparison rules of
    JavaScript: every ordered comparison with [NaN] is false.  The gate and
    the densities are compared as exact quotients.  In [sendAttack] the
    rounding of the product and of the difference decides whether an attack
    leaves and what it carries: there the arithmetic is that of IEEE 754
    binary64, see [Double]. *)
Module Num.

Inductive t : Type :=
| Finite (q : Q)
| PosInfinity
| NegInfinity
| NaN.

(** [x < y] on finite numbers *)
Definition Qlt_bool (x y : Q) : bool := negb (Qle_bool y x).

(** [a / b] *)
Definition div (a b : Q) : t :=
  if Qeq_bool b 0 then
    match a ?= 0 with
    | Gt => PosInfinity
    | Lt => NegInfinity
    | Eq => NaN
    end
  else Finite (a / b).

(** [x < y] *)
Definition ltb (x y : t) : bool :=
  match x, y with
  | NaN, _ | _, NaN => false
  | Finite a, Finite b => Qlt_bool a b
  | _, NegInfinity => false
  | NegInfinity, _ => true
  | PosInfinity, _ => false
  | Finite _, PosInfinity => true
  end.

(** [x <= y] *)
Definition leb (x y : t) : bool :=
  match x, y with
  | NaN, _ | _, NaN => false
  | Finite a, Finite b => Qle_bool a b
  | NegInfinity, _ => true
  | _, PosInfinity => true
  | _, _ => false
  end.

(** [x >= y] *)
Definition geb (x y : t) : bool := leb y x.

End Num.

(** ** Doubles

    The binary64 numbers and operations of [SpecFloat], with round to
    nearest, ties to even. *)
Module Double.

Definition prec : Z := 53.
Definition emax : Z := 1024.

(** A JavaScript number, as the specification of floating-point numbers
    of the Standard Library has it *)
Definition t : Type := spec_float.

Definition mul (x y : t) : t := SFmul prec emax x y.
Definition sub (x y : t) : t := SFsub prec emax x y.
Definition div (x y : t) : t := SFdiv prec emax x y.
Definition ltb (x y : t) : bool := SFltb x y.

(** The double nearest to an integer *)
Definition ofZ (z : Z) : t := binary_normalize prec emax z 0 false.
(** The double a rational of the world stands for: the double of that
    value, and for a decimal fraction such as 7/100 the nearest double, which
    is what the literal [0.07] denotes.  (The quotient of two integers is
    rounded once; numerator and denominator of the value of a double are
    themselves doubles.) *)
Definition ofQ (q : Q) : t := div (ofZ (Qnum q)) (ofZ (Zpos (Qden q))).
Definition one : t := ofZ 1.

(** [x] is finite and its value is the rational [q]. *)
Definition exactly (x : t) (q : Q) : Prop :=
  match x with
  | S754_zero _ => q == 0
  | S754_finite s m e => q == inject_Z (cond_Zopp s (Zpos m)) * 2 ^ e
  | _ => False
  end.

(** The mantissa of [x] has at most [prec] bits at its exponent, which is
    not below the least exponent. *)
Definition fits (x : t) : bool :=
  match x with
  | S754_finite _ m e => (fexp prec emax (Zpos (digits2_pos m) + e) <=? e)%Z
  | _ => true
  end.

Definition eqb (x y : t) : bool :=
  match x, y with
  | S754_zero s, S754_zero s' => Bool.eqb s s'
  | S754_infinity s, S754_infinity s' => Bool.eqb s s'
  | S754_nan, S754_nan => true
  | S754_finite s m e, S754_finite s' m' e' =>
      (Bool.eqb s s' && Pos.eqb m m' && Z.eqb e e')%bool
  | _, _ => false
  end.

(** The exponents [0 .. 1074] *)
Definition exponents : list Z := map Z.of_nat (seq 0 1075).

(** The integer [2 ^ k] at exponent [- k] is normalised to [one]. *)
Definition powerOfTwoRoundsToOne (k : Z) : bool :=
  eqb (binary_normalize prec emax (2 ^ k) (- k) false) one.

(** The number of mantissa [2 ^ k] and exponent [- k], if it fits, does
    not compare below [one]. *)
Definition powerOfTwoNotBelowOne (k : Z) : bool :=
  implb (fits (S754_finite false (Z.to_pos (2 ^ k)) (- k)))
        (negb (ltb (S754_finite false (Z.to_pos (2 ^ k)) (- k)) one)).

End Double.

(** ** The game's data, as this class sees it *)

Definition PlayerID := string.
Definition Tick := Z.

Inductive PlayerType : Type := Human | Bot | FakeHuman.

Definition PlayerType_eqb (a b : PlayerType) : bool :=
  match a, b with
  | Human, Human | Bot, Bot | FakeHuman, FakeHuman => true
  | _, _ => false
  end.

(** Modelled from the spec: the [Relation] enum of [game/Game.ts], which is
    imported here but is not among the sources.  The levels are numbered
    from the most hostile one upwards, as the numeric comparison
    [relation < Relation.Neutral] needs. *)
Inductive Relation : Type := Hostile | Distrustful | Neutral | Friendly.

Definition Relation_value (r : Relation) : Z :=
  match r with
  | Hostile => 0
  | Distrustful => 1
  | Neutral => 2
  | Friendly => 3
  end.

Definition Relation_eqb (a b : Relation) : bool :=
  Z.eqb (Relation_value a) (Relation_value b).

Module Player.

(** What the methods of a [Player] object answer during one tick.  The two
    queries that take another player are keyed by that player's id. *)
Record t : Type := mk {
  id : PlayerID;
  type : PlayerType;
  troops : Q;
  numTilesOwned : nat;
  isTraitor : bool;
  alliances : list PlayerID;
  relations : PlayerID -> Relation;
  friends : PlayerID -> bool
}.

(** [p.relation(other)] *)
Definition relation (p other : t) : Relation := relations p (id other).

(** [p.isFriendly(other)]: ally or teammate *)
Definition isFriendly (p other : t) : bool := friends p (id other).

End Player.

(** [Player | TerraNullius] *)
Inductive Entity : Type :=
| APlayer (p : Player.t)
| TerraNullius.

Definition isPlayer (e : Entity) : bool :=
  match e with
  | APlayer _ => true
  | TerraNullius => false
  end.

Module Attack.

Record t : Type := mk {
  attacker : Player.t;
  troops : Q
}.

End Attack.

Record AllianceRequest : Type := mkAllianceRequest {
  requestor : Player.t
}.

(** [new AttackExecution(troops, owner, targetID)] *)
Inductive Execution : Type :=
| AttackExecution (startTroops : Double.t) (owner : Player.t)
                  (targetID : option PlayerID).

Record World : Type := mkWorld {
  ticks : Tick;                                   (* game.ticks() *)
  maxTroops : Player.t -> Q;                      (* game.config().maxTroops(p) *)
  terraNulliusID : option PlayerID;               (* game.terraNullius().id() *)
  player : Player.t;                              (* this.player *)
  neighbors : list Entity;                        (* this.player.neighbors() *)
  incomingAttacks : list Attack.t;                (* this.player.incomingAttacks() *)
  allRelationsSorted : list (Player.t * Relation) (* this.player.allRelationsSorted() *)
}.

(** [game.addExecution(e)] *)
Definition addExecution (e : Execution) (queue : list Execution) : list Execution :=
  queue ++ [e].

(** The world as it is at another tick *)
Definition atTick (w : World) (now : Tick) : World :=
  {| ticks := now;
     maxTroops := maxTroops w;
     terraNulliusID := terraNulliusID w;
     player := player w;
     neighbors := neighbors w;
     incomingAttacks := incomingAttacks w;
     allRelationsSorted := allRelationsSorted w |}.

(** ** The injected random source

    [PseudoRandom] is imported and not among the sources: its three methods
    used here are taken as an interface over the generator's state. *)
Class PseudoRandom (R : Type) : Type := {
  chance : Q -> R -> bool * R;
  shuffleArray : forall {A : Type}, list A -> R -> list A * R;
  randElement : forall {A : Type}, list A -> R -> option A * R
}.

(** A generator for tests: the state is the list of the outcomes still to
    come; [chance] consumes one, [shuffleArray] keeps the order and
    [randElement] takes the first element. *)
Definition scripted_chance (odds : Q) (r : list bool) : bool * list bool :=
  match r with
  | [] => (false, [])
  | c :: r' => (c, r')
  end.

#[local] Instance scripted : PseudoRandom (list bool) := {
  chance := scripted_chance;
  shuffleArray := fun A l r => (l, r);
  randElement := fun A l r => (hd_error l, r)
}.

(** ** The controller *)

Record BotBehavior (R : Type) : Type := mkBotBehavior {
  random : R;
  enemy : option Player.t;
  enemyUpdated : option Tick;      (* [None]: never assigned, [undefined] *)
  triggerRatio : Q;
  reserveRatio : Q;
  expandRatio : Q
}.

Arguments mkBotBehavior {R}.
Arguments random {R}.
Arguments enemy {R}.
Arguments enemyUpdated {R}.
Arguments triggerRatio {R}.
Arguments reserveRatio {R}.
Arguments expandRatio {R}.

Section Controller.

Context {R : Type} `{PseudoRandom R}.

Definition setRandom (r : R) (b : BotBehavior R) : BotBehavior R :=
  mkBotBehavior r (enemy b) (enemyUpdated b)
                (triggerRatio b) (reserveRatio b) (expandRatio b).

Definition setNewEnemy (w : World) (newEnemy : option Player.t)
           (b : BotBehavior R) : BotBehavior R :=
  mkBotBehavior (random b) newEnemy (Some (ticks w))
                (triggerRatio b) (reserveRatio b) (expandRatio b).

Definition clearEnemy (b : BotBehavior R) : BotBehavior R :=
  mkBotBehavior (random b) None (enemyUpdated b)
                (triggerRatio b) (reserveRatio b) (expandRatio b).

(** With [enemyUpdated] still undefined the difference is [NaN], and
    [NaN > 100] is false. *)
Definition forgetOldEnemies (w : World) (b : BotBehavior R) : BotBehavior R :=
  match enemyUpdated b with
  | Some updated => if (100 <? ticks w - updated)%Z then clearEnemy b else b
  | None => b
  end.

Definition hasSufficientTroops (w : World) (b : BotBehavior R) : bool :=
  let maxTroops := maxTroops w (player w) in
  let ratio := Num.div (Player.troops (player w)) maxTroops in
  Num.geb ratio (Num.Finite (triggerRatio b)).

(** The loop of [checkIncomingAttacks] over the attacks still to visit *)
Fixpoint largestAttackLoop (attacks : list Attack.t) (largestAttack : Q)
         (largestAttacker : option Player.t) : Q * option Player.t :=
  match attacks with
  | [] => (largestAttack, largestAttacker)
  | attack :: rest =>
      if Qle_bool (Attack.troops attack) largestAttack
      then largestAttackLoop rest largestAttack largestAttacker
      else largestAttackLoop rest (Attack.troops attack)
                             (Some (Attack.attacker attack))
  end.

Definition checkIncomingAttacks (w : World) (b : BotBehavior R) : BotBehavior R :=
  match snd (largestAttackLoop (incomingAttacks w) 0 None) with
  | Some largestAttacker => setNewEnemy w (Some largestAttacker) b
  | None => b
  end.

Definition enemySanityCheck (w : World) (b : BotBehavior R)
  : option Player.t * BotBehavior R :=
  let b' :=
    match enemy b with
    | Some e => if Player.isFriendly (player w) e then clearEnemy b else b
    | None => b
    end in
  (enemy b', b').

(** [neighbors().filter(n => n.isPlayer() && n.type() === PlayerType.Bot)] *)
Fixpoint neighborBots (ns : list Entity) : list Player.t :=
  match ns with
  | [] => []
  | APlayer p :: rest =>
      if PlayerType_eqb (Player.type p) Bot
      then p :: neighborBots rest
      else neighborBots rest
  | TerraNullius :: rest => neighborBots rest
  end.

Definition density (p : Player.t) : Num.t :=
  Num.div (Player.troops p) (inject_Z (Z.of_nat (Player.numTilesOwned p))).

(** The loop of [selectEnemy] over the bots still to visit *)
Fixpoint lowestDensityLoop (bots : list Player.t)
         (lowestDensityBot : option Player.t) (lowestDensity : Num.t)
  : option Player.t * Num.t :=
  match bots with
  | [] => (lowestDensityBot, lowestDensity)
  | bot :: rest =>
      let currentDensity := density bot in
      if Num.ltb currentDensity lowestDensity
      then lowestDensityLoop rest (Some bot) currentDensity
      else lowestDensityLoop rest lowestDensityBot lowestDensity
  end.

(** "Prefer neighboring bots": the first block of [selectEnemy] *)
Definition preferNeighboringBots (w : World) (b : BotBehavior R) : BotBehavior R :=
  match neighborBots (neighbors w) with
  | [] => b
  | bots =>
      match fst (lowestDensityLoop bots None Num.PosInfinity) with
      | Some lowestDensityBot => setNewEnemy w (Some lowestDensityBot) b
      | None => b
      end
  end.

(** "Retaliate against incoming attacks" *)
Definition retaliate (w : World) (b : BotBehavior R) : BotBehavior R :=
  match enemy b with
  | None => checkIncomingAttacks w b
  | Some _ => b
  end.

(** "Select the most hated player" *)
Definition selectMostHated (w : World) (b : BotBehavior R) : BotBehavior R :=
  match enemy b with
  | None =>
      match hd_error (allRelationsSorted w) with
      | Some (mostHated, rel) =>
          if Relation_eqb rel Hostile
          then setNewEnemy w (Some mostHated) b
          else b
      | None => b
      end
  | Some _ => b
  end.

Definition selectEnemy (w : World) (b : BotBehavior R)
  : option Player.t * BotBehavior R :=
  match enemy b with
  | None =>
      if negb (hasSufficientTroops w b) then (None, b)
      else
        enemySanityCheck w
          (selectMostHated w (retaliate w (preferNeighboringBots w b)))
  | Some _ => enemySanityCheck w b
  end.

(** The loop of [selectRandomEnemy] over the shuffled neighbors still to
    visit *)
Fixpoint neighborWalk (w : World) (shuffled : list Entity)
         (b : BotBehavior R) : BotBehavior R :=
  match shuffled with
  | [] => b
  | TerraNullius :: rest => neighborWalk w rest b
  | APlayer neighbor :: rest =>
      if Player.isFriendly (player w) neighbor then neighborWalk w rest b
      else
        match Player.type neighbor with
        | FakeHuman =>
            let (skip, r) := chance 2 (random b) in
            if skip then neighborWalk w rest (setRandom r b)
            else neighborWalk w rest
                              (setNewEnemy w (Some neighbor) (setRandom r b))
        | _ => neighborWalk w rest (setNewEnemy w (Some neighbor) b)
        end
  end.

(** [neighbors().filter(n => n.isPlayer() && n.isTraitor())] *)
Fixpoint neighborTraitors (ns : list Entity) : list Player.t :=
  match ns with
  | [] => []
  | APlayer p :: rest =>
      if Player.isTraitor p
      then p :: neighborTraitors rest
      else neighborTraitors rest
  | TerraNullius :: rest => neighborTraitors rest
  end.

Definition getNeighborTraitorToAttack (w : World) (b : BotBehavior R)
  : option Player.t * BotBehavior R :=
  match neighborTraitors (neighbors w) with
  | [] => (None, b)
  | traitors =>
      let (chosen, r) := randElement traitors (random b) in
      (chosen, setRandom r b)
  end.

(** "Select a traitor as an enemy" *)
Definition selectTraitor (w : World) (b : BotBehavior R) : BotBehavior R :=
  match enemy b with
  | None =>
      let (toAttack, b1) := getNeighborTraitorToAttack w b in
      match toAttack with
      | Some traitor =>
          if Player.isFriendly (player w) traitor then b1
          else
            let (commit, r) := chance 3 (random b1) in
            if commit then setNewEnemy w (Some traitor) (setRandom r b1)
            else setRandom r b1
      | None => b1
      end
  | Some _ => b
  end.

Definition selectRandomEnemy (w : World) (b : BotBehavior R)
  : option Player.t * BotBehavior R :=
  match enemy b with
  | None =>
      if negb (hasSufficientTroops w b) then (None, b)
      else
        let (shuffled, r) := shuffleArray (neighbors w) (random b) in
        enemySanityCheck w
          (selectTraitor w (retaliate w (neighborWalk w shuffled (setRandom r b))))
  | Some _ => enemySanityCheck w b
  end.

Definition sendAttack (w : World) (b : BotBehavior R) (target : Entity)
           (queue : list Execution) : list Execution :=
  if match target with
     | APlayer p => Player.isFriendly (player w) p
     | TerraNullius => false
     end
  then queue
  else
    let maxTroops := Double.ofQ (maxTroops w (player w)) in
    let reserveRatio :=
      Double.ofQ (if isPlayer target then reserveRatio b else expandRatio b) in
    let targetTroops := Double.mul maxTroops reserveRatio in
    let troops :=
      Double.sub (Double.ofQ (Player.troops (player w))) targetTroops in
    if Double.ltb troops Double.one then queue
    else
      addExecution
        (AttackExecution troops (player w)
           match target with
           | APlayer p => Some (Player.id p)
           | TerraNullius => terraNulliusID w
           end)
        queue.

(** The engine calls [forgetOldEnemies] once per tick: the calls of the
    [n] ticks that follow tick [since], in order, [worldAt t] being the
    world at tick [t]. *)
Fixpoint forgetOverTicks (worldAt : Tick -> World) (since : Tick) (n : nat)
         (b : BotBehavior R) : BotBehavior R :=
  match n with
  | O => b
  | S k =>
      forgetOldEnemies (worldAt (since + Z.of_nat n)%Z)
                       (forgetOverTicks worldAt since k b)
  end.

(** The neighbors that pass the filters of the walk of [selectRandomEnemy],
    in the order of the walk, and the generator after the trials of the
    FakeHuman neighbors among them. *)
Fixpoint qualifying (w : World) (shuffled : list Entity) (r : R)
  : list Player.t * R :=
  match shuffled with
  | [] => ([], r)
  | TerraNullius :: rest => qualifying w rest r
  | APlayer neighbor :: rest =>
      if Player.isFriendly (player w) neighbor then qualifying w rest r
      else
        match Player.type neighbor with
        | FakeHuman =>
            let (skip, r1) := chance 2 r in
            let (ps, r2) := qualifying w rest r1 in
            (if skip then ps else neighbor :: ps, r2)
        | _ =>
            let (ps, r2) := qualifying w rest r in
            (neighbor :: ps, r2)
        end
  end.

(** What a run of [setNewEnemy] over the qualifying neighbors leaves: the
    last of them, if there is one. *)
Definition lastChoice (w : World) (ps : list Player.t) (r : R)
           (b : BotBehavior R) : BotBehavior R :=
  match rev ps with
  | [] => setRandom r b
  | p :: _ => setNewEnemy w (Some p) (setRandom r b)
  end.

(** The reserve [sendAttack] keeps at home against [target], as the double
    it computes *)
Definition reserveFloor (w : World) (b : BotBehavior R) (target : Entity)
  : Double.t :=
  Double.mul (Double.ofQ (maxTroops w (player w)))
             (Double.ofQ (if isPlayer target then reserveRatio b
                          else expandRatio b)).

(** The id [sendAttack] names as the defender *)
Definition targetIDOf (w : World) (target : Entity) : option PlayerID :=
  match target with
  | APlayer p => Some (Player.id p)
  | TerraNullius => terraNulliusID w
  end.

End Controller.

Arguments forgetOverTicks {R} worldAt since%_Z n%_nat b.

Definition shouldAcceptAllianceRequest (player : Player.t)
           (request : AllianceRequest) : bool :=
  if (Relation_value (Player.relation player (requestor request))
      <? Relation_value Neutral)%Z
  then false
  else if Player.isTraitor (requestor request) then false
  else if (Player.numTilesOwned player * 3
           <? Player.numTilesOwned (requestor request))%nat
  then true
  else if (3 <=? List.length (Player.alliances (requestor request)))%nat then false
  else true.

(** ** The rest of the controller

    The methods below talk to more of the game than [World] holds: the
    remaining queries are gathered in [Affairs], again one tick's answers.
    What these methods ask of other objects (answers to requests, relation
    updates, donations, executions other than attacks) is recorded as a
    trace of calls, in the order the calls are made. *)

Definition TileRef := Z.

(** Modelled from the spec: the structure types of the [UnitType] enum of
    [game/Game.ts] that [buildUnits] names; the enum is not among the
    sources. *)
Inductive UnitType : Type :=
| City
| Factory
| DefensePost
| MissileSilo
| SAMLauncher.

Module Alliance.

(** An alliance of the controlled player: [other] is
    [alliance.other(this.player)]. *)
Record t : Type := mk {
  onlyOneAgreedToExtend : bool;
  other : Player.t
}.

End Alliance.

Record Affairs : Type := mkAffairs {
  incomingAllianceRequests : list AllianceRequest; (* this.player.incomingAllianceRequests() *)
  alliances : list Alliance.t;                     (* this.player.alliances() *)
  allies : list Player.t;                          (* this.player.allies() *)
  targetsOf : PlayerID -> list Player.t;           (* p.targets(), by the id of p *)
  alliedWith : PlayerID -> bool;                   (* this.player.isAlliedWith(p), by the id of p *)
  gold : Z;                                        (* this.player.gold(), a bigint *)
  tilesOf : PlayerID -> list TileRef;              (* p.tiles(), by the id of p *)
  canBuild : UnitType -> TileRef -> bool;          (* this.player.canBuild(type, tile), as a condition *)
  manhattanDist : TileRef -> TileRef -> Q          (* game.manhattanDist(a, b) *)
}.

(** [p.targets()] *)
Definition targets (d : Affairs) (p : Player.t) : list Player.t :=
  targetsOf d (Player.id p).

(** [this.player.isAlliedWith(p)] *)
Definition isAlliedWith (d : Affairs) (p : Player.t) : bool :=
  alliedWith d (Player.id p).

(** [p.tiles()] *)
Definition tiles (d : Affairs) (p : Player.t) : list TileRef :=
  tilesOf d (Player.id p).

Inductive Call : Type :=
| Accept (request : AllianceRequest)                       (* req.accept() *)
| Reject (request : AllianceRequest)                       (* req.reject() *)
| UpdateRelation (other : Player.t) (delta : Z)            (* this.player.updateRelation(other, delta) *)
| DonateTroops (recipient : Player.t) (amount : Z)         (* this.player.donateTroops(recipient, amount) *)
| DonateGold (recipient : Player.t) (amount : Z)           (* this.player.donateGold(recipient, amount) *)
| AllianceExtensionExecution (from : Player.t) (toID : PlayerID)
| EmojiExecution (from : Player.t) (recipientID : PlayerID) (emoji : Z)
| ConstructionExecution (owner : Player.t) (unit : UnitType) (tile : TileRef).

(** The inner loop of [minDistanceBetweenPlayers], [dist] being the
    distance from the current [tileA] *)
Fixpoint minDistanceInner (dist : TileRef -> Q) (tilesB : list TileRef)
         (minDist : Num.t) : Num.t :=
  match tilesB with
  | [] => minDist
  | tileB :: rest =>
      if Num.ltb (Num.Finite (dist tileB)) minDist
      then minDistanceInner dist rest (Num.Finite (dist tileB))
      else minDistanceInner dist rest minDist
  end.

(** The outer loop of [minDistanceBetweenPlayers] *)
Fixpoint minDistanceOuter (d : Affairs) (tilesA tilesB : list TileRef)
         (minDist : Num.t) : Num.t :=
  match tilesA with
  | [] => minDist
  | tileA :: rest =>
      minDistanceOuter d rest tilesB
                       (minDistanceInner (manhattanDist d tileA) tilesB minDist)
  end.

Definition minDistanceBetweenPlayers (d : Affairs) (playerA playerB : Player.t)
  : Num.t :=
  minDistanceOuter d (tiles d playerA) (tiles d playerB) Num.PosInfinity.

(** The requests are answered against the tick's snapshot: an answer does
    not change what [shouldAcceptAllianceRequest] reads for a request of
    another requestor. *)
Fixpoint handleAllianceRequestsLoop (player : Player.t)
         (requests : list AllianceRequest) : list Call :=
  match requests with
  | [] => []
  | req :: rest =>
      (if shouldAcceptAllianceRequest player req then Accept req else Reject req)
        :: handleAllianceRequestsLoop player rest
  end.

Definition handleAllianceRequests (w : World) (d : Affairs) : list Call :=
  handleAllianceRequestsLoop (player w) (incomingAllianceRequests d).

(** The tile of the first [break] of one loop of [buildUnits] *)
Fixpoint firstBuildable (d : Affairs) (unit : UnitType)
         (ts : list TileRef) : option TileRef :=
  match ts with
  | [] => None
  | tile :: rest =>
      if canBuild d unit tile then Some tile else firstBuildable d unit rest
  end.

(** One of the five loops of [buildUnits] *)
Definition buildUnit (w : World) (d : Affairs) (unit : UnitType)
           (trace : list Call) : list Call :=
  match firstBuildable d unit (tiles d (player w)) with
  | Some tile => trace ++ [ConstructionExecution (player w) unit tile]
  | None => trace
  end.

Definition buildUnits (w : World) (d : Affairs) (trace : list Call) : list Call :=
  buildUnit w d SAMLauncher
    (buildUnit w d MissileSilo
       (buildUnit w d DefensePost
          (buildUnit w d Factory
             (buildUnit w d City trace)))).

(** What one ally receives in [distributeResourcesToAllies] *)
Definition donationsTo (troopsToSend goldToSend : Z) (ally : Player.t)
  : list Call :=
  (if (0 <? troopsToSend)%Z then [DonateTroops ally troopsToSend] else [])
  ++ (if (0 <? goldToSend)%Z then [DonateGold ally goldToSend] else []).

(** [Math.floor] of a finite number; bigint division truncates. *)
Definition distributeResourcesToAllies (w : World) (d : Affairs) : list Call :=
  match allies d with
  | [] => []
  | _ =>
      let troopsToSend := Qfloor (Player.troops (player w) * (1 # 4)) in
      let goldToSend := Z.quot (gold d) 4 in
      if ((0 <? troopsToSend)%Z || (0 <? goldToSend)%Z)%bool
      then flat_map (donationsTo troopsToSend goldToSend) (allies d)
      else []
  end.

(** The order in which [buildUnits] goes through the structure types *)
Definition buildOrder : list UnitType :=
  [City; Factory; DefensePost; MissileSilo; SAMLauncher].

(** What one loop of [buildUnits] adds *)
Definition construction (w : World) (d : Affairs) (unit : UnitType) : list Call :=
  match firstBuildable d unit (tiles d (player w)) with
  | Some tile => [ConstructionExecution (player w) unit tile]
  | None => []
  end.

(** The troops that the [donateTroops] calls of a trace ask for *)
Fixpoint troopsAsked (trace : list Call) : Z :=
  match trace with
  | [] => 0%Z
  | DonateTroops _ amount :: rest => (amount + troopsAsked rest)%Z
  | _ :: rest => troopsAsked rest
  end.

Section RestOfController.

Context {R : Type} `{PseudoRandom R}.

(** [private assistAcceptEmoji = flattenedEmojiTable.indexOf(...)] *)
Variable assistAcceptEmoji : Z.

Definition emoji (w : World) (recipient : Player.t) (code : Z) : list Call :=
  match Player.type recipient with
  | Human => [EmojiExecution (player w) (Player.id recipient) code]
  | _ => []
  end.

(** The loop of [handleAllianceExtensionRequests] over the alliances still
    to visit *)
Fixpoint extensionLoop (w : World) (pending : list Alliance.t) (r : R)
  : list Call * R :=
  match pending with
  | [] => ([], r)
  | alliance :: rest =>
      if negb (Alliance.onlyOneAgreedToExtend alliance)
      then extensionLoop w rest r
      else
        let human := Alliance.other alliance in
        if (PlayerType_eqb (Player.type (player w)) FakeHuman
            && Relation_eqb (Player.relation (player w) human) Neutral)%bool
        then
          let (agree, r1) := chance (3 # 2) r in
          if negb agree then extensionLoop w rest r1
          else
            let (calls, r2) := extensionLoop w rest r1 in
            (AllianceExtensionExecution (player w) (Player.id human) :: calls, r2)
        else
          let (calls, r2) := extensionLoop w rest r in
          (AllianceExtensionExecution (player w) (Player.id human) :: calls, r2)
  end.

Definition handleAllianceExtensionRequests (w : World) (d : Affairs)
           (b : BotBehavior R) : list Call * BotBehavior R :=
  let (calls, r) := extensionLoop w (alliances d) (random b) in
  (calls, setRandom r b).

(** The inner loop of [assistAllies]: the first target that is neither the
    controlled player (players are compared by id) nor allied with it *)
Fixpoint assistTarget (w : World) (d : Affairs) (ts : list Player.t)
  : option Player.t :=
  match ts with
  | [] => None
  | target :: rest =>
      if String.eqb (Player.id target) (Player.id (player w))
      then assistTarget w d rest
      else if isAlliedWith d target then assistTarget w d rest
      else Some target
  end.

(** The outer loop of [assistAllies] *)
Fixpoint assistLoop (w : World) (d : Affairs) (pending : list Player.t)
         (b : BotBehavior R) : list Call * BotBehavior R :=
  match pending with
  | [] => ([], b)
  | ally :: rest =>
      match targets d ally with
      | [] => assistLoop w d rest b
      | ts =>
          if (Relation_value (Player.relation (player w) ally)
              <? Relation_value Friendly)%Z
          then assistLoop w d rest b
          else
            match assistTarget w d ts with
            | Some target =>
                (UpdateRelation ally (-20) :: emoji w ally assistAcceptEmoji,
                 setNewEnemy w (Some target) b)
            | None => assistLoop w d rest b
            end
      end
  end.

Definition assistAllies (w : World) (d : Affairs) (b : BotBehavior R)
  : list Call * BotBehavior R :=
  assistLoop w d (allies d) b.

(** The enemy of [b], when there is one, was set at the tick of [w]. *)
Definition stamped (w : World) (b : BotBehavior R) : Prop :=
  enemy b = None \/ enemyUpdated b = Some (ticks w).

(** The three ratios of [b'] are those of [b]. *)
Definition sameRatios (b b' : BotBehavior R) : Prop :=
  triggerRatio b' = triggerRatio b
  /\ reserveRatio b' = reserveRatio b
  /\ expandRatio b' = expandRatio b.

(** What any implementation of [randElement] does on players: the element
    it returns is one of the array. *)
Definition randElementPicks : Prop :=
  forall (l : list Player.t) (r : R) (x : Player.t),
    fst (randElement l r) = Some x -> In x l.

End RestOfController.

(** ** Sample worlds *)

Definition neutralToAll : PlayerID -> Relation := fun _ => Neutral.
Definition friendOfNone : PlayerID -> bool := fun _ => false.

Definition aBot (name : PlayerID) (troops : Q) (tiles : nat) : Player.t :=
  Player.mk name Bot troops tiles false [] neutralToAll friendOfNone.

(** Hostile to [foe], neutral to everybody else *)
Definition grudge : PlayerID -> Relation :=
  fun other => if String.eqb other "foe"%string then Hostile else Neutral.

(** The controlled player: 80 troops, 10 tiles, allied with [ally] *)
Definition nation : Player.t :=
  Player.mk "nation"%string FakeHuman 80 10 false ["ally"%string] grudge
            (String.eqb "ally"%string).

(** A controlled player with 51 troops *)
Definition recruit : Player.t :=
  Player.mk "recruit"%string Bot 51 10 false [] neutralToAll friendOfNone.

Definition ally : Player.t := aBot "ally"%string 10 5.
Definition dense : Player.t := aBot "dense"%string 50 10.
Definition sparse : Player.t := aBot "sparse"%string 20 10.
Definition sparse' : Player.t := aBot "sparse2"%string 4 2.
Definition landless : Player.t := aBot "landless"%string 7 0.
Definition raider : Player.t :=
  Player.mk "raider"%string Human 300 40 false [] neutralToAll friendOfNone.
Definition mimic : Player.t :=
  Player.mk "mimic"%string FakeHuman 90 12 false [] neutralToAll friendOfNone.
Definition turncoat : Player.t :=
  Player.mk "turncoat"%string Human 30 4 true [] neutralToAll friendOfNone.

Definition giant : Player.t :=
  Player.mk "giant"%string Human 500 31 false
            ["a"%string; "b"%string; "c"%string] neutralToAll friendOfNone.
Definition foe : Player.t :=
  Player.mk "foe"%string Human 500 45 false [] neutralToAll friendOfNone.

(** A world around [me], every capacity being 100 troops *)
Definition worldOf (me : Player.t) (now : Tick) (ns : list Entity)
           (attacks : list Attack.t) : World :=
  mkWorld now (fun _ => 100) None me ns attacks [].

Definition worldWith (now : Tick) (ns : list Entity) (attacks : list Attack.t)
  : World :=
  worldOf nation now ns attacks.

Arguments worldOf me now%_Z ns attacks.
Arguments worldWith now%_Z ns attacks.

(** No enemy yet, never had one; trigger 1/2, reserve 1/2, expand 1/10 *)
Definition fresh (r : list bool) : BotBehavior (list bool) :=
  mkBotBehavior r None None (1 # 2) (1 # 2) (1 # 10).


(** ** Sample affairs *)

Definition comrade : Player.t :=
  Player.mk "comrade"%string Human 60 8 false [] neutralToAll friendOfNone.

(** Friendly to [comrade], hostile to [foe] *)
Definition bonds : PlayerID -> Relation :=
  fun other =>
    if String.eqb other "comrade"%string then Friendly
    else if String.eqb other "foe"%string then Hostile
    else Neutral.

(** A controlled FakeHuman with 83 troops and 10 tiles *)
Definition warlord : Player.t :=
  Player.mk "warlord"%string FakeHuman 83 10 false ["comrade"%string] bonds
            (String.eqb "comrade"%string).

Definition affairsOf (me : Player.t) : Affairs :=
  mkAffairs
    [mkAllianceRequest foe; mkAllianceRequest giant; mkAllianceRequest turncoat]
    [Alliance.mk false raider; Alliance.mk true comrade; Alliance.mk true mimic]
    [ally; comrade]
    (fun who =>
       if String.eqb who "comrade"%string then [me; ally; foe; raider]
       else if String.eqb who "ally"%string then [dense]
       else [])
    (String.eqb "ally"%string)
    1003
    (fun who =>
       if String.eqb who (Player.id me) then [10; 11; 12]%Z
       else if String.eqb who "foe"%string then [30; 17]%Z
       else [])
    (fun unit tile =>
       match unit with
       | City => (11 <=? tile)%Z
       | Factory => false
       | DefensePost => (tile =? 12)%Z
       | MissileSilo => (11 <=? tile)%Z
       | SAMLauncher => false
       end)
    (fun a b => inject_Z (Z.abs (a - b))).

(** A controller of [warlord] that already has an enemy *)
Definition engaged (r : list bool) (e : Player.t) : BotBehavior (list bool) :=
  mkBotBehavior r (Some e) (Some 40%Z) (9 # 10) (1 # 2) (1 # 10).

(** [nation] with no Bot around, an attack that carries nothing, and [foe]
    at the head of its relations *)
Definition resentful : World :=
  mkWorld 3%Z (fun _ => 100) None nation
          [TerraNullius; APlayer turncoat] [Attack.mk raider 0]
          [(foe, Hostile); (raider, Neutral)].

(** A controller that attacks from 3/5 of its capacity and keeps 1/2 *)
Definition keen (r : list bool) : BotBehavior (list bool) :=
  mkBotBehavior r None None (3 # 5) (1 # 2) (1 # 10).

(** A controlled player with 3 troops *)
Definition pauper : Player.t :=
  Player.mk "pauper"%string Bot 3 2 false [] neutralToAll friendOfNone.

(** A controlled player with the given troops *)
Definition soldier (troops : Q) : Player.t :=
  Player.mk "soldier"%string Bot troops 10 false [] neutralToAll friendOfNone.

(** A controller that keeps the given ratio against players *)
Definition holding (reserve : Q) : BotBehavior (list bool) :=
  mkBotBehavior [] None None (1 # 2) reserve (1 # 10).

(** * Properties *)

(** ** Comparisons of numbers *)

Lemma Qle_bool_false (x y : Q) : Qle_bool x y = false <-> y < x.
Proof.
  split; intro Hxy.
  - apply Qnot_le_lt. intro Hle. apply Qle_bool_iff in Hle. congruence.
  - destruct (Qle_bool x y) eqn:E; [|reflexivity].
    apply Qle_bool_iff in E. lra.
Qed.

Lemma Qlt_bool_iff (x y : Q) : Num.Qlt_bool x y = true <-> x < y.
Proof.
  unfold Num.Qlt_bool. rewrite negb_true_iff. apply Qle_bool_false.
Qed.

Lemma Qlt_bool_false (x y : Q) : Num.Qlt_bool x y = false <-> y <= x.
Proof.
  unfold Num.Qlt_bool. rewrite negb_false_iff. apply Qle_bool_iff.
Qed.

(** Turns the boolean comparisons of the context and of the goal into
    propositions on rationals and closes the goal by arithmetic. *)
Ltac num_order :=
  simpl in *;
  repeat match goal with
         | Hc : Num.Qlt_bool _ _ = true |- _ => apply Qlt_bool_iff in Hc
         | Hc : Num.Qlt_bool _ _ = false |- _ => apply Qlt_bool_false in Hc
         | Hc : Qle_bool _ _ = true |- _ => apply Qle_bool_iff in Hc
         | Hc : Qle_bool _ _ = false |- _ => apply Qle_bool_false in Hc
         end;
  try discriminate; try reflexivity;
  try (apply Qlt_bool_iff; lra);
  try (apply Qlt_bool_false; lra);
  try (apply Qle_bool_iff; lra);
  try (apply Qle_bool_false; lra).

Lemma ltb_trans (x y z : Num.t) :
  Num.ltb x y = true -> Num.ltb y z = true -> Num.ltb x z = true.
Proof.
  destruct x, y, z; intros Hxy Hyz; num_order.
Qed.

Lemma ltb_not_leb (x y : Num.t) :
  Num.ltb x y = true -> Num.leb y x = false.
Proof.
  destruct x, y; intros Hxy; num_order.
Qed.

Lemma not_below_bound_not_leb (x p d : Num.t) :
  Num.ltb x d = false -> Num.ltb p d = true -> Num.leb x p = false.
Proof.
  destruct x, p, d; intros Hx Hp; num_order.
Qed.

(** ** The enemy memory *)

Section Memory.

Context {R : Type} `{PseudoRandom R}.

Lemma setRandom_same (b : BotBehavior R) : setRandom (random b) b = b.
Proof. destruct b; reflexivity. Qed.

Lemma enemySanityCheck_cases (w : World) (b : BotBehavior R) :
  enemySanityCheck w b =
    match enemy b with
    | Some e =>
        if Player.isFriendly (player w) e then (None, clearEnemy b)
        else (Some e, b)
    | None => (None, b)
    end.
Proof.
  unfold enemySanityCheck.
  destruct (enemy b) as [e|] eqn:He.
  - destruct (Player.isFriendly (player w) e); [reflexivity|].
    rewrite He. reflexivity.
  - rewrite He. reflexivity.
Qed.

Lemma enemySanityCheck_not_friendly (w : World) (b : BotBehavior R) (e : Player.t) :
  fst (enemySanityCheck w b) = Some e ->
  Player.isFriendly (player w) e = false.
Proof.
  rewrite enemySanityCheck_cases.
  destruct (enemy b) as [e'|]; [|discriminate].
  destruct (Player.isFriendly (player w) e') eqn:Hf; [discriminate|].
  simpl. intros [= <-]. exact Hf.
Qed.

Lemma forgetOldEnemies_keeps (w : World) (b : BotBehavior R) (T : Tick) :
  enemyUpdated b = Some T -> (ticks w - T <= 100)%Z ->
  forgetOldEnemies w b = b.
Proof.
  intros Hu Hle. unfold forgetOldEnemies. rewrite Hu.
  destruct (Z.ltb_spec 100 (ticks w - T)); [lia|reflexivity].
Qed.

Lemma forgetOldEnemies_clears (w : World) (b : BotBehavior R) (T : Tick) :
  enemyUpdated b = Some T -> (ticks w - T > 100)%Z ->
  forgetOldEnemies w b = clearEnemy b.
Proof.
  intros Hu Hgt. unfold forgetOldEnemies. rewrite Hu.
  destruct (Z.ltb_spec 100 (ticks w - T)); [reflexivity|lia].
Qed.

Lemma forgetOverTicks_closed_form (worldAt : Tick -> World) (T : Tick)
      (b : BotBehavior R) (n : nat) :
  (forall t, ticks (worldAt t) = t) ->
  enemyUpdated b = Some T ->
  forgetOverTicks worldAt T n b = if (n <=? 100)%nat then b else clearEnemy b.
Proof.
  intros Hclock Hu. induction n as [|k IH].
  - reflexivity.
  - cbn [forgetOverTicks]. rewrite IH.
    destruct (Nat.leb_spec (S k) 100) as [Hs|Hs].
    + destruct (Nat.leb_spec k 100) as [_|Hk]; [|lia].
      apply (forgetOldEnemies_keeps _ _ T Hu). rewrite Hclock. lia.
    + destruct (Nat.leb_spec k 100) as [Hk|Hk].
      * apply (forgetOldEnemies_clears _ _ T Hu). rewrite Hclock. lia.
      * rewrite (forgetOldEnemies_clears _ _ T); [reflexivity|exact Hu|].
        rewrite Hclock. lia.
Qed.

End Memory.

(** C1. The sanity check returns [currentEnemy] unless it is set and friendly
    to the controlled player, in which case it clears it and returns null;
    so it never returns a friendly player, and neither do [selectEnemy] and
    [selectRandomEnemy], which both end by calling it. *)
Theorem sanityCheck_never_returns_friendly :
  forall (R : Type) (PR : PseudoRandom R) (w : World) (b : BotBehavior R),
    enemySanityCheck w b =
      match enemy b with
      | Some e =>
          if Player.isFriendly (player w) e then (None, clearEnemy b)
          else (Some e, b)
      | None => (None, b)
      end
    /\ (forall e, fst (enemySanityCheck w b) = Some e ->
                  Player.isFriendly (player w) e = false)
    /\ (forall e, fst (selectEnemy w b) = Some e ->
                  Player.isFriendly (player w) e = false)
    /\ (forall e, fst (selectRandomEnemy w b) = Some e ->
                  Player.isFriendly (player w) e = false).
Proof.
  intros R PR w b. split; [apply enemySanityCheck_cases|].
  split; [apply enemySanityCheck_not_friendly|].
  split; intros e.
  - unfold selectEnemy. destruct (enemy b).
    + apply enemySanityCheck_not_friendly.
    + destruct (negb (hasSufficientTroops w b)); [discriminate|].
      apply enemySanityCheck_not_friendly.
  - unfold selectRandomEnemy. destruct (enemy b).
    + apply enemySanityCheck_not_friendly.
    + destruct (negb (hasSufficientTroops w b)); [discriminate|].
      destruct (shuffleArray (neighbors w) (random b)) as [shuffled r].
      apply enemySanityCheck_not_friendly.
Qed.

(** The bot [selectEnemy] returns at tick 0 is not friendly to [nation]. *)
Lemma sanityCheck_never_returns_friendly_witness :
  Player.isFriendly (player (worldWith 0 [APlayer sparse] []))
                    sparse = false.
Proof.
  apply (proj1 (proj2 (proj2 (sanityCheck_never_returns_friendly
                                (list bool) scripted
                                (worldWith 0 [APlayer sparse] [])
                                (fresh []))))).
  reflexivity.
Defined.

(** C2. An enemy set at tick [T] and not reassigned survives every call of
    [forgetOldEnemies] at a tick [t] with [t - T <= 100] and is cleared by a
    call at a tick with [t - T > 100]; called once per tick, the enemy is
    still there after tick [T + 100] and gone after tick [T + 101]. *)
Theorem forgetOldEnemies_expiry_is_exact :
  forall (R : Type) (PR : PseudoRandom R) (w : World) (b0 : BotBehavior R)
         (e : Player.t) (worldAt : Tick -> World),
    (forall t, ticks (worldAt t) = t) ->
    let T := ticks w in
    let b := setNewEnemy w (Some e) b0 in
    (forall t, (t - T <= 100)%Z -> forgetOldEnemies (worldAt t) b = b)
    /\ (forall t, (t - T > 100)%Z ->
                  enemy (forgetOldEnemies (worldAt t) b) = None)
    /\ (forall n, (n <= 100)%nat ->
                  enemy (forgetOverTicks worldAt T n b) = Some e)
    /\ (forall n, (100 < n)%nat ->
                  enemy (forgetOverTicks worldAt T n b) = None).
Proof.
  intros R PR w b0 e worldAt Hclock T b.
  assert (Hu : enemyUpdated b = Some T) by reflexivity.
  repeat split.
  - intros t Ht. apply (forgetOldEnemies_keeps _ _ T Hu). rewrite Hclock. exact Ht.
  - intros t Ht. rewrite (forgetOldEnemies_clears _ _ T Hu); [reflexivity|].
    rewrite Hclock. exact Ht.
  - intros n Hn. rewrite (forgetOverTicks_closed_form _ T _ _ Hclock Hu).
    destruct (Nat.leb_spec n 100); [reflexivity|lia].
  - intros n Hn. rewrite (forgetOverTicks_closed_form _ T _ _ Hclock Hu).
    destruct (Nat.leb_spec n 100); [lia|reflexivity].
Qed.

Lemma forgetOldEnemies_expiry_is_exact_witness :
  enemy (forgetOverTicks (atTick (worldWith 7 [] [])) 7 100
           (setNewEnemy (worldWith 7 [] []) (Some raider) (fresh [])))
  = Some raider
  /\ enemy (forgetOverTicks (atTick (worldWith 7 [] [])) 7 101
              (setNewEnemy (worldWith 7 [] []) (Some raider) (fresh [])))
     = None.
Proof.
  pose proof (forgetOldEnemies_expiry_is_exact
                (list bool) scripted (worldWith 7 [] []) (fresh []) raider
                (atTick (worldWith 7 [] [])) (fun t => eq_refl)) as Hexp.
  destruct Hexp as (_ & _ & Hkeep & Hclear).
  split; [apply Hkeep | apply Hclear]; simpl; lia.
Defined.

(** ** Retaliation *)

Section Retaliation.

Context {R : Type} `{PseudoRandom R}.

(** Either no attack beats the running maximum [m] and the attacker found
    so far stays, or the loop ends on the first attack that carries the
    largest troop count, which beats [m]. *)
Lemma largestAttackLoop_spec (attacks : list Attack.t) :
  forall (m : Q) (cur : option Player.t),
    (snd (largestAttackLoop attacks m cur) = cur
     /\ Forall (fun a => Attack.troops a <= m) attacks)
    \/ (exists l1 a l2,
           attacks = l1 ++ a :: l2
           /\ snd (largestAttackLoop attacks m cur) = Some (Attack.attacker a)
           /\ m < Attack.troops a
           /\ Forall (fun x => Attack.troops x < Attack.troops a) l1
           /\ Forall (fun x => Attack.troops x <= Attack.troops a) l2).
Proof.
  induction attacks as [|attack rest IH]; intros m cur.
  - left. split; [reflexivity|constructor].
  - cbn [largestAttackLoop].
    destruct (Qle_bool (Attack.troops attack) m) eqn:Hcmp.
    + apply Qle_bool_iff in Hcmp.
      destruct (IH m cur) as [[Hsame Hall]|(l1 & a & l2 & -> & Hres & Hm & H1 & H2)].
      * left. split; [exact Hsame|constructor; assumption].
      * right. exists (attack :: l1), a, l2.
        repeat split; try assumption.
        constructor; [lra|assumption].
    + apply Qle_bool_false in Hcmp. right.
      destruct (IH (Attack.troops attack) (Some (Attack.attacker attack)))
        as [[Hsame Hall]|(l1 & a & l2 & -> & Hres & Hm & H1 & H2)].
      * exists [], attack, rest.
        repeat split; try assumption. constructor.
      * exists (attack :: l1), a, l2.
        repeat split; try assumption; [lra|].
        constructor; assumption.
Qed.

Lemma checkIncomingAttacks_nothing_positive (w : World) (b : BotBehavior R) :
  Forall (fun a => Attack.troops a <= 0) (incomingAttacks w) ->
  checkIncomingAttacks w b = b.
Proof.
  intros Hall. unfold checkIncomingAttacks.
  destruct (largestAttackLoop_spec (incomingAttacks w) 0 None)
    as [[-> _]|(l1 & a & l2 & Heq & _ & Hpos & _)]; [reflexivity|].
  exfalso. rewrite Heq in Hall.
  apply Forall_app in Hall. destruct Hall as [_ Hall].
  inversion Hall as [|? ? Ha _]. lra.
Qed.

End Retaliation.

(** C5, amended.  [checkIncomingAttacks] leaves the state unchanged when no
    attack is incoming; when some incoming attack carries a strictly
    positive troop count, it sets as enemy, at the current tick, the
    attacker of the first attack in enumeration order that carries the
    largest troop count: every earlier attack carries strictly fewer
    troops, every later one at most as many. *)
Theorem checkIncomingAttacks_largest_positive :
  forall (R : Type) (PR : PseudoRandom R) (w : World) (b : BotBehavior R),
    (incomingAttacks w = [] -> checkIncomingAttacks w b = b)
    /\ (Exists (fun a => 0 < Attack.troops a) (incomingAttacks w) ->
        exists l1 a l2,
          incomingAttacks w = l1 ++ a :: l2
          /\ 0 < Attack.troops a
          /\ Forall (fun x => Attack.troops x < Attack.troops a) l1
          /\ Forall (fun x => Attack.troops x <= Attack.troops a) l2
          /\ checkIncomingAttacks w b
             = setNewEnemy w (Some (Attack.attacker a)) b).
Proof.
  intros R PR w b. split.
  - intros Hnone. unfold checkIncomingAttacks. rewrite Hnone. reflexivity.
  - intros Hpos. unfold checkIncomingAttacks.
    destruct (largestAttackLoop_spec (incomingAttacks w) 0 None)
      as [[_ Hall]|(l1 & a & l2 & Heq & Hres & Ha & H1 & H2)].
    + exfalso. apply Exists_exists in Hpos. destruct Hpos as (a & Hin & Ha).
      rewrite Forall_forall in Hall. specialize (Hall a Hin). lra.
    + exists l1, a, l2. rewrite Hres. repeat split; assumption.
Qed.

(** Attacked by 10, 25 and 25 troops, the bot turns on the first attacker
    with 25. *)
Lemma checkIncomingAttacks_largest_positive_witness :
  exists l1 a l2,
    [Attack.mk dense 10; Attack.mk raider 25; Attack.mk mimic 25]
    = l1 ++ a :: l2
    /\ 0 < Attack.troops a
    /\ Forall (fun x => Attack.troops x < Attack.troops a) l1
    /\ Forall (fun x => Attack.troops x <= Attack.troops a) l2
    /\ checkIncomingAttacks
         (worldWith 3 [] [Attack.mk dense 10; Attack.mk raider 25;
                          Attack.mk mimic 25])
         (fresh [])
       = setNewEnemy
           (worldWith 3 [] [Attack.mk dense 10; Attack.mk raider 25;
                            Attack.mk mimic 25])
           (Some (Attack.attacker a)) (fresh []).
Proof.
  apply (proj2 (checkIncomingAttacks_largest_positive
                  (list bool) scripted
                  (worldWith 3 [] [Attack.mk dense 10; Attack.mk raider 25;
                                   Attack.mk mimic 25])
                  (fresh []))).
  simpl. apply Exists_cons_hd. simpl. lra.
Defined.

(** C5 as stated fails: an attack is incoming, it carries no troops, and no
    enemy is set. *)
Lemma checkIncomingAttacks_ignores_empty_attack :
  incomingAttacks (worldWith 3 [] [Attack.mk raider 0]) = [Attack.mk raider 0]
  /\ checkIncomingAttacks (worldWith 3 [] [Attack.mk raider 0]) (fresh [])
     = fresh []
  /\ enemy (checkIncomingAttacks (worldWith 3 [] [Attack.mk raider 0]) (fresh []))
     = None.
Proof. repeat split. Qed.

(** C10. [checkIncomingAttacks] changes the state only if some incoming
    attack carries a strictly positive troop count: when attacks are
    incoming and every one of them carries a troop count of 0 or less, the
    state is left unchanged. *)
Theorem checkIncomingAttacks_needs_positive_troops :
  forall (R : Type) (PR : PseudoRandom R) (w : World) (b : BotBehavior R),
    (checkIncomingAttacks w b <> b ->
     Exists (fun a => 0 < Attack.troops a) (incomingAttacks w))
    /\ (incomingAttacks w <> [] ->
        Forall (fun a => Attack.troops a <= 0) (incomingAttacks w) ->
        checkIncomingAttacks w b = b).
Proof.
  intros R PR w b. split.
  - intros Hchanged. unfold checkIncomingAttacks in Hchanged.
    destruct (largestAttackLoop_spec (incomingAttacks w) 0 None)
      as [[Hsame _]|(l1 & a & l2 & Heq & _ & Hpos & _)].
    + rewrite Hsame in Hchanged. contradiction.
    + rewrite Heq. apply Exists_app. right. apply Exists_cons_hd. exact Hpos.
  - intros _. apply checkIncomingAttacks_nothing_positive.
Qed.

Lemma checkIncomingAttacks_needs_positive_troops_witness :
  checkIncomingAttacks
    (worldWith 3 [] [Attack.mk raider 0; Attack.mk dense 0]) (fresh [true])
  = fresh [true].
Proof.
  apply (proj2 (checkIncomingAttacks_needs_positive_troops
                  (list bool) scripted
                  (worldWith 3 [] [Attack.mk raider 0; Attack.mk dense 0])
                  (fresh [true]))).
  - discriminate.
  - simpl. repeat constructor; simpl; lra.
Defined.

(** ** The density search of [selectEnemy] *)

Section Density.

Context {R : Type} `{PseudoRandom R}.

Lemma density_with_tiles (p : Player.t) :
  Player.numTilesOwned p <> 0%nat ->
  Num.ltb (density p) Num.PosInfinity = true.
Proof.
  intros Htiles. unfold density, Num.div.
  destruct (Qeq_bool (inject_Z (Z.of_nat (Player.numTilesOwned p))) 0) eqn:Hz.
  - exfalso. apply Qeq_bool_iff in Hz.
    unfold Qeq in Hz. simpl in Hz. lia.
  - reflexivity.
Qed.

Lemma density_without_tiles (p : Player.t) :
  Player.numTilesOwned p = 0%nat -> 0 <= Player.troops p ->
  Num.ltb (density p) Num.PosInfinity = false.
Proof.
  intros Htiles Htroops. unfold density, Num.div. rewrite Htiles. simpl.
  destruct (Player.troops p ?= 0) eqn:Hc; try reflexivity.
  exfalso. rewrite <- Qlt_alt in Hc. lra.
Qed.

(** Either no bot beats the running minimum [d] and the bot found so far
    stays, or the loop ends on a bot whose density beats [d], is matched or
    beaten by no earlier bot and is beaten by no later bot. *)
Lemma lowestDensityLoop_spec (bots : list Player.t) :
  forall (cur : option Player.t) (d : Num.t),
    (lowestDensityLoop bots cur d = (cur, d)
     /\ Forall (fun x => Num.ltb (density x) d = false) bots)
    \/ (exists l1 p l2,
           bots = l1 ++ p :: l2
           /\ lowestDensityLoop bots cur d = (Some p, density p)
           /\ Num.ltb (density p) d = true
           /\ Forall (fun x => Num.leb (density x) (density p) = false) l1
           /\ Forall (fun x => Num.ltb (density x) (density p) = false) l2).
Proof.
  induction bots as [|bot rest IH]; intros cur d.
  - left. split; [reflexivity|constructor].
  - cbn [lowestDensityLoop].
    destruct (Num.ltb (density bot) d) eqn:Hcmp.
    + right.
      destruct (IH (Some bot) (density bot))
        as [[Hsame Hall]|(l1 & p & l2 & -> & Hres & Hp & H1 & H2)].
      * exists [], bot, rest. repeat split; try assumption. constructor.
      * exists (bot :: l1), p, l2. repeat split; try assumption.
        -- apply (ltb_trans _ (density bot)); assumption.
        -- constructor; [apply ltb_not_leb; exact Hp|assumption].
    + destruct (IH cur d)
        as [[Hsame Hall]|(l1 & p & l2 & -> & Hres & Hp & H1 & H2)].
      * left. split; [exact Hsame|constructor; assumption].
      * right. exists (bot :: l1), p, l2. repeat split; try assumption.
        constructor; [|assumption].
        apply (not_below_bound_not_leb _ _ d); assumption.
Qed.

(** With a bot that owns a tile among them, the search ends on the first
    bot of lowest density. *)
Lemma lowestDensityLoop_finds (bots : list Player.t) :
  Exists (fun p => Player.numTilesOwned p <> 0%nat) bots ->
  exists l1 p l2,
    bots = l1 ++ p :: l2
    /\ fst (lowestDensityLoop bots None Num.PosInfinity) = Some p
    /\ Forall (fun x => Num.leb (density x) (density p) = false) l1
    /\ Forall (fun x => Num.ltb (density x) (density p) = false) l2.
Proof.
  intros Hex.
  destruct (lowestDensityLoop_spec bots None Num.PosInfinity)
    as [[_ Hall]|(l1 & p & l2 & Heq & Hres & _ & H1 & H2)].
  - exfalso. apply Exists_exists in Hex. destruct Hex as (p & Hin & Htiles).
    rewrite Forall_forall in Hall. specialize (Hall p Hin).
    rewrite (density_with_tiles p Htiles) in Hall. discriminate.
  - exists l1, p, l2. rewrite Hres. repeat split; assumption.
Qed.

Lemma lowestDensityLoop_owns_tiles (bots : list Player.t) (p : Player.t) :
  (forall x, In x bots -> Player.numTilesOwned x = 0%nat ->
             0 <= Player.troops x) ->
  fst (lowestDensityLoop bots None Num.PosInfinity) = Some p ->
  In p bots /\ Player.numTilesOwned p <> 0%nat.
Proof.
  intros Hwf Hres.
  destruct (lowestDensityLoop_spec bots None Num.PosInfinity)
    as [[Hsame _]|(l1 & q & l2 & Heq & Hq & Hlt & _)].
  - rewrite Hsame in Hres. discriminate.
  - rewrite Hq in Hres. injection Hres as <-.
    assert (Hin : In q bots) by (rewrite Heq; apply in_elt).
    split; [exact Hin|].
    intros Hzero.
    rewrite (density_without_tiles q Hzero (Hwf q Hin Hzero)) in Hlt.
    discriminate.
Qed.

Lemma preferNeighboringBots_sets (w : World) (b : BotBehavior R) (p : Player.t) :
  fst (lowestDensityLoop (neighborBots (neighbors w)) None Num.PosInfinity)
  = Some p ->
  preferNeighboringBots w b = setNewEnemy w (Some p) b.
Proof.
  intros Hres. unfold preferNeighboringBots.
  destruct (neighborBots (neighbors w)) as [|bot rest] eqn:Hbots.
  - discriminate.
  - rewrite Hres. reflexivity.
Qed.

Lemma preferNeighboringBots_skips (w : World) (b : BotBehavior R) :
  fst (lowestDensityLoop (neighborBots (neighbors w)) None Num.PosInfinity)
  = None ->
  preferNeighboringBots w b = b.
Proof.
  intros Hres. unfold preferNeighboringBots.
  destruct (neighborBots (neighbors w)) as [|bot rest] eqn:Hbots.
  - reflexivity.
  - rewrite Hres. reflexivity.
Qed.

Lemma selectEnemy_ready (w : World) (b : BotBehavior R) :
  enemy b = None -> hasSufficientTroops w b = true ->
  selectEnemy w b
  = enemySanityCheck w
      (selectMostHated w (retaliate w (preferNeighboringBots w b))).
Proof.
  intros Hnone Hready. unfold selectEnemy. rewrite Hnone, Hready. reflexivity.
Qed.

End Density.

(** C3, amended.  When no enemy is set, the troops suffice and some adjacent
    Bot owns a tile, the density step of [selectEnemy] sets as enemy the
    first adjacent Bot of lowest troop density: no earlier Bot has a density
    at most as large, no later Bot a smaller one.  [selectEnemy] returns
    that Bot unless it is friendly to the controlled player; then the sanity
    check clears the enemy and [selectEnemy] returns null. *)
Theorem selectEnemy_lowest_density_bot :
  forall (R : Type) (PR : PseudoRandom R) (w : World) (b : BotBehavior R),
    enemy b = None ->
    hasSufficientTroops w b = true ->
    Exists (fun p => Player.numTilesOwned p <> 0%nat)
           (neighborBots (neighbors w)) ->
    exists l1 p l2,
      neighborBots (neighbors w) = l1 ++ p :: l2
      /\ Forall (fun x => Num.leb (density x) (density p) = false) l1
      /\ Forall (fun x => Num.ltb (density x) (density p) = false) l2
      /\ preferNeighboringBots w b = setNewEnemy w (Some p) b
      /\ selectEnemy w b
         = if Player.isFriendly (player w) p
           then (None, clearEnemy (setNewEnemy w (Some p) b))
           else (Some p, setNewEnemy w (Some p) b).
Proof.
  intros R PR w b Hnone Hready Hex.
  destruct (lowestDensityLoop_finds _ Hex) as (l1 & p & l2 & Heq & Hres & H1 & H2).
  exists l1, p, l2.
  assert (Hset : preferNeighboringBots w b = setNewEnemy w (Some p) b)
    by (apply preferNeighboringBots_sets; exact Hres).
  repeat split; try assumption.
  rewrite (selectEnemy_ready w b Hnone Hready), Hset.
  rewrite enemySanityCheck_cases. reflexivity.
Qed.

(** Next to bots of densities 5, 2 and 2, [selectEnemy] returns the first
    bot of density 2. *)
Lemma selectEnemy_lowest_density_bot_witness :
  exists l1 p l2,
    [dense; sparse; sparse'] = l1 ++ p :: l2
    /\ Forall (fun x => Num.leb (density x) (density p) = false) l1
    /\ Forall (fun x => Num.ltb (density x) (density p) = false) l2
    /\ preferNeighboringBots
         (worldWith 0 [APlayer dense; TerraNullius; APlayer raider;
                       APlayer sparse; APlayer sparse'] [])
         (fresh [])
       = setNewEnemy
           (worldWith 0 [APlayer dense; TerraNullius; APlayer raider;
                         APlayer sparse; APlayer sparse'] [])
           (Some p) (fresh [])
    /\ selectEnemy
         (worldWith 0 [APlayer dense; TerraNullius; APlayer raider;
                       APlayer sparse; APlayer sparse'] [])
         (fresh [])
       = if Player.isFriendly nation p
         then (None,
               clearEnemy
                 (setNewEnemy
                    (worldWith 0 [APlayer dense; TerraNullius; APlayer raider;
                                  APlayer sparse; APlayer sparse'] [])
                    (Some p) (fresh [])))
         else (Some p,
               setNewEnemy
                 (worldWith 0 [APlayer dense; TerraNullius; APlayer raider;
                               APlayer sparse; APlayer sparse'] [])
                 (Some p) (fresh [])).
Proof.
  apply (selectEnemy_lowest_density_bot
           (list bool) scripted
           (worldWith 0 [APlayer dense; TerraNullius; APlayer raider;
                         APlayer sparse; APlayer sparse'] [])
           (fresh [])).
  - reflexivity.
  - reflexivity.
  - apply Exists_cons_hd. discriminate.
Defined.

(** C3 as stated fails: no enemy is set, the troops suffice, the one
    adjacent Bot is an ally, and [selectEnemy] ends with no enemy. *)
Lemma selectEnemy_drops_friendly_bot :
  enemy (fresh []) = None
  /\ hasSufficientTroops (worldWith 0 [APlayer ally] []) (fresh []) = true
  /\ neighborBots (neighbors (worldWith 0 [APlayer ally] [])) = [ally]
  /\ fst (selectEnemy (worldWith 0 [APlayer ally] []) (fresh [])) = None
  /\ enemy (snd (selectEnemy (worldWith 0 [APlayer ally] []) (fresh [])))
     = None.
Proof. repeat split. Qed.

(** C9, amended.  The density step of [selectEnemy] has no guard of its
    own for a Bot without tiles, and needs none as long as troop counts are
    not negative: the density of such a Bot is [Infinity], or [NaN] for 0/0,
    neither of which is below the running minimum, so the Bot is never set
    as enemy and no fault leaves the comparison.  When every adjacent Bot is
    without tiles the step leaves the state unchanged, and [selectEnemy]
    goes on to the retaliation step. *)
Theorem zero_tile_bots_are_never_chosen :
  forall (R : Type) (PR : PseudoRandom R) (w : World) (b : BotBehavior R),
    (forall x, In x (neighborBots (neighbors w)) ->
               Player.numTilesOwned x = 0%nat -> 0 <= Player.troops x) ->
    (forall p, enemy b = None ->
               enemy (preferNeighboringBots w b) = Some p ->
               In p (neighborBots (neighbors w))
               /\ Player.numTilesOwned p <> 0%nat)
    /\ ((forall x, In x (neighborBots (neighbors w)) ->
                   Player.numTilesOwned x = 0%nat) ->
        preferNeighboringBots w b = b
        /\ (enemy b = None -> hasSufficientTroops w b = true ->
            selectEnemy w b
            = enemySanityCheck w
                (selectMostHated w (checkIncomingAttacks w b)))).
Proof.
  intros R PR w b Hwf.
  pose proof (lowestDensityLoop_owns_tiles (neighborBots (neighbors w))) as Hown.
  destruct (fst (lowestDensityLoop (neighborBots (neighbors w)) None
                                   Num.PosInfinity)) as [q|] eqn:Hres.
  - destruct (Hown q Hwf eq_refl) as [Hin Htiles]. split.
    + intros p Hnone Hp.
      rewrite (preferNeighboringBots_sets w b q Hres) in Hp.
      simpl in Hp. injection Hp as <-. split; assumption.
    + intros Hzero. exfalso. apply Htiles, Hzero, Hin.
  - assert (Hskip : preferNeighboringBots w b = b)
      by (apply preferNeighboringBots_skips; exact Hres).
    split.
    + intros p Hnone Hp. rewrite Hskip, Hnone in Hp. discriminate.
    + intros _. split; [exact Hskip|].
      intros Hnone Hready.
      rewrite (selectEnemy_ready w b Hnone Hready), Hskip.
      unfold retaliate. rewrite Hnone. reflexivity.
Qed.

(** Next to a single Bot without tiles and attacked by [raider], the bot
    retaliates. *)
Lemma zero_tile_bots_are_never_chosen_witness :
  selectEnemy (worldWith 5 [APlayer landless] [Attack.mk raider 12]) (fresh [])
  = (Some raider,
     setNewEnemy (worldWith 5 [APlayer landless] [Attack.mk raider 12])
                 (Some raider) (fresh [])).
Proof.
  pose proof (zero_tile_bots_are_never_chosen
                (list bool) scripted
                (worldWith 5 [APlayer landless] [Attack.mk raider 12])
                (fresh [])) as Hzero.
  assert
    (Hwf : forall x,
        In x (neighborBots
                (neighbors (worldWith 5 [APlayer landless]
                                      [Attack.mk raider 12]))) ->
        Player.numTilesOwned x = 0%nat -> 0 <= Player.troops x).
  { simpl. intros x [<-|[]] _. simpl. lra. }
  destruct (Hzero Hwf) as [_ Hall].
  assert
    (Hnone : forall x,
        In x (neighborBots
                (neighbors (worldWith 5 [APlayer landless]
                                      [Attack.mk raider 12]))) ->
        Player.numTilesOwned x = 0%nat).
  { simpl. intros x [<-|[]]. reflexivity. }
  destruct (Hall Hnone) as [_ Hgo].
  rewrite (Hgo eq_refl eq_refl). reflexivity.
Defined.

(** C9 as stated fails: a Bot without tiles whose troop count is negative
    has the density [-Infinity], which is below every other density, and
    [selectEnemy] picks it. *)
Lemma selectEnemy_picks_landless_bot_in_debt :
  Player.numTilesOwned (aBot "debtor"%string (-1) 0) = 0%nat
  /\ density (aBot "debtor"%string (-1) 0) = Num.NegInfinity
  /\ selectEnemy
       (worldWith 0 [APlayer sparse; APlayer (aBot "debtor"%string (-1) 0)] [])
       (fresh [])
     = (Some (aBot "debtor"%string (-1) 0),
        setNewEnemy
          (worldWith 0 [APlayer sparse; APlayer (aBot "debtor"%string (-1) 0)]
                     [])
          (Some (aBot "debtor"%string (-1) 0)) (fresh [])).
Proof. repeat split. Qed.

(** ** The random walk of [selectRandomEnemy] *)

Section Walk.

Context {R : Type} `{PseudoRandom R}.

Lemma lastChoice_cons (w : World) (p : Player.t) (ps : list Player.t)
      (r : R) (b : BotBehavior R) :
  lastChoice w ps r (setNewEnemy w (Some p) b) = lastChoice w (p :: ps) r b.
Proof.
  unfold lastChoice. cbn [rev].
  destruct (rev ps) as [|q qs]; reflexivity.
Qed.

Lemma lastChoice_setRandom (w : World) (ps : list Player.t)
      (r r' : R) (b : BotBehavior R) :
  lastChoice w ps r (setRandom r' b) = lastChoice w ps r b.
Proof.
  unfold lastChoice. destruct (rev ps); reflexivity.
Qed.

Lemma neighborWalk_lastChoice (w : World) (shuffled : list Entity) :
  forall b : BotBehavior R,
    neighborWalk w shuffled b
    = lastChoice w (fst (qualifying w shuffled (random b)))
                 (snd (qualifying w shuffled (random b))) b.
Proof.
  induction shuffled as [|[neighbor|] rest IH]; intros b.
  - symmetry. apply setRandom_same.
  - cbn [neighborWalk qualifying].
    destruct (Player.isFriendly (player w) neighbor); [apply IH|].
    destruct (Player.type neighbor).
    + rewrite IH. cbn [setNewEnemy random].
      destruct (qualifying w rest (random b)) as [ps r2].
      apply lastChoice_cons.
    + rewrite IH. cbn [setNewEnemy random].
      destruct (qualifying w rest (random b)) as [ps r2].
      apply lastChoice_cons.
    + destruct (chance 2 (random b)) as [skip r1].
      destruct skip; rewrite IH; cbn [setNewEnemy setRandom random];
        destruct (qualifying w rest r1) as [ps r2]; cbn [fst snd].
      * apply lastChoice_setRandom.
      * rewrite lastChoice_cons. apply lastChoice_setRandom.
  - cbn [neighborWalk qualifying]. apply IH.
Qed.

Lemma qualifying_not_friendly (w : World) (shuffled : list Entity) :
  forall (r : R) (p : Player.t),
    In p (fst (qualifying w shuffled r)) ->
    Player.isFriendly (player w) p = false.
Proof.
  induction shuffled as [|[neighbor|] rest IH]; intros r p Hin.
  - destruct Hin.
  - cbn [qualifying] in Hin.
    destruct (Player.isFriendly (player w) neighbor) eqn:Hf; [eauto|].
    destruct (Player.type neighbor).
    + destruct (qualifying w rest r) as [ps r2] eqn:Hq.
      destruct Hin as [<-|Hin]; [exact Hf|].
      apply (IH r). rewrite Hq. exact Hin.
    + destruct (qualifying w rest r) as [ps r2] eqn:Hq.
      destruct Hin as [<-|Hin]; [exact Hf|].
      apply (IH r). rewrite Hq. exact Hin.
    + destruct (chance 2 r) as [skip r1].
      destruct (qualifying w rest r1) as [ps r2] eqn:Hq.
      destruct skip; cbn [fst] in Hin.
      * apply (IH r1). rewrite Hq. exact Hin.
      * destruct Hin as [<-|Hin]; [exact Hf|].
        apply (IH r1). rewrite Hq. exact Hin.
  - cbn [qualifying] in Hin. eauto.
Qed.

End Walk.

(** C4. The walk of [selectRandomEnemy] runs to the end of the shuffled
    list: the enemy it leaves is the last neighbor that passes the filters
    (a player, not friendly, and for a FakeHuman one whose [chance(2)] trial
    did not tell to skip it); when none passes, only the generator has
    moved.  With no enemy set and sufficient troops, [selectRandomEnemy]
    returns that last qualifying neighbor. *)
Theorem selectRandomEnemy_last_qualifying_wins :
  forall (R : Type) (PR : PseudoRandom R) (w : World) (b : BotBehavior R)
         (shuffled : list Entity),
    (forall ps r,
        qualifying w shuffled (random b) = (ps, r) ->
        (ps = [] -> neighborWalk w shuffled b = setRandom r b)
        /\ (forall front p,
               ps = front ++ [p] ->
               neighborWalk w shuffled b
               = setNewEnemy w (Some p) (setRandom r b)))
    /\ (forall r0 front p r,
           enemy b = None ->
           hasSufficientTroops w b = true ->
           shuffleArray (neighbors w) (random b) = (shuffled, r0) ->
           qualifying w shuffled r0 = (front ++ [p], r) ->
           selectRandomEnemy w b
           = (Some p, setNewEnemy w (Some p) (setRandom r b))).
Proof.
  intros R PR w b shuffled. split.
  - intros ps r Hq. rewrite neighborWalk_lastChoice, Hq. cbn [fst snd].
    split.
    + intros ->. reflexivity.
    + intros front p ->. unfold lastChoice. rewrite rev_app_distr. reflexivity.
  - intros r0 front p r Hnone Hready Hshuffle Hq.
    unfold selectRandomEnemy. rewrite Hnone, Hready, Hshuffle. cbn [negb].
    rewrite neighborWalk_lastChoice. cbn [setRandom random].
    rewrite Hq. cbn [fst snd].
    unfold lastChoice. rewrite rev_app_distr. cbn [rev app].
    rewrite enemySanityCheck_cases. cbn.
    assert (Hf : Player.isFriendly (player w) p = false).
    { apply (qualifying_not_friendly w shuffled r0).
      rewrite Hq. apply in_or_app. right. left. reflexivity. }
    rewrite Hf. reflexivity.
Qed.

(** Among [raider], the allied [ally], [mimic] (skipped by its trial),
    unclaimed land and [sparse], both [raider] and [sparse] qualify, and the
    later one, [sparse], becomes the enemy. *)
Lemma selectRandomEnemy_last_qualifying_wins_witness :
  selectRandomEnemy
    (worldWith 9 [APlayer raider; APlayer ally; APlayer mimic; TerraNullius;
                  APlayer sparse] [])
    (fresh [true; false])
  = (Some sparse,
     setNewEnemy
       (worldWith 9 [APlayer raider; APlayer ally; APlayer mimic; TerraNullius;
                     APlayer sparse] [])
       (Some sparse) (setRandom [false] (fresh [true; false]))).
Proof.
  apply (proj2 (selectRandomEnemy_last_qualifying_wins
                  (list bool) scripted
                  (worldWith 9 [APlayer raider; APlayer ally; APlayer mimic;
                                TerraNullius; APlayer sparse] [])
                  (fresh [true; false])
                  [APlayer raider; APlayer ally; APlayer mimic; TerraNullius;
                   APlayer sparse])
               [true; false] [raider] sparse [false]);
    reflexivity.
Defined.

(** ** The troop-readiness gate *)

(** With a capacity other than zero, the gate is closed exactly when the
    troop ratio is below the trigger ratio. *)
Lemma hasSufficientTroops_false_iff (R : Type) (PR : PseudoRandom R)
      (w : World) (b : BotBehavior R) :
  ~ maxTroops w (player w) == 0 ->
  (hasSufficientTroops w b = false
   <-> Player.troops (player w) / maxTroops w (player w) < triggerRatio b).
Proof.
  intros Hmax. unfold hasSufficientTroops, Num.div.
  destruct (Qeq_bool (maxTroops w (player w)) 0) eqn:Hz.
  - apply Qeq_bool_iff in Hz. contradiction.
  - unfold Num.geb, Num.leb. apply Qle_bool_false.
Qed.



(** ** Alliance requests *)

(** C7, amended.  [shouldAcceptAllianceRequest] applies four rules in
    order: a requestor with relation below Neutral is rejected; otherwise a
    traitor is rejected; otherwise a requestor owning more than three times
    the player's tiles is accepted, however many alliances it holds;
    otherwise a requestor holding three alliances or more is rejected; any
    other requestor is accepted.  It returns a boolean and touches no
    state. *)
Theorem shouldAcceptAllianceRequest_rules :
  forall (player : Player.t) (request : AllianceRequest),
    let who := requestor request in
    let malice :=
      (Relation_value (Player.relation player who) < Relation_value Neutral)%Z in
    let muchLarger :=
      (Player.numTilesOwned player * 3 < Player.numTilesOwned who)%nat in
    let tooManyAlliances := (3 <= List.length (Player.alliances who))%nat in
    (malice -> shouldAcceptAllianceRequest player request = false)
    /\ (~ malice -> Player.isTraitor who = true ->
        shouldAcceptAllianceRequest player request = false)
    /\ (~ malice -> Player.isTraitor who = false -> muchLarger ->
        shouldAcceptAllianceRequest player request = true)
    /\ (~ malice -> Player.isTraitor who = false -> ~ muchLarger ->
        tooManyAlliances ->
        shouldAcceptAllianceRequest player request = false)
    /\ (~ malice -> Player.isTraitor who = false -> ~ muchLarger ->
        ~ tooManyAlliances ->
        shouldAcceptAllianceRequest player request = true).
Proof.
  intros player request who malice muchLarger tooManyAlliances.
  unfold shouldAcceptAllianceRequest.
  fold who.
  destruct (Z.ltb_spec (Relation_value (Player.relation player who))
                       (Relation_value Neutral)) as [Hm|Hm];
    destruct (Player.isTraitor who);
    destruct (Nat.ltb_spec (Player.numTilesOwned player * 3)
                           (Player.numTilesOwned who)) as [Hl|Hl];
    destruct (Nat.leb_spec 3 (List.length (Player.alliances who))) as [Ha|Ha];
    subst malice muchLarger tooManyAlliances;
    repeat split; intros; try reflexivity; try discriminate; lia.
Qed.

(** [foe], resented and more than four times larger, is turned down;
    [giant], neutral and more than three times larger, is accepted with
    its three alliances. *)
Lemma shouldAcceptAllianceRequest_rules_witness :
  shouldAcceptAllianceRequest nation (mkAllianceRequest foe) = false
  /\ shouldAcceptAllianceRequest nation (mkAllianceRequest giant) = true.
Proof.
  split.
  - apply (proj1 (shouldAcceptAllianceRequest_rules
                    nation (mkAllianceRequest foe))).
    simpl. lia.
  - apply (proj1 (proj2 (proj2 (shouldAcceptAllianceRequest_rules
                                  nation (mkAllianceRequest giant))))).
    + simpl. lia.
    + reflexivity.
    + simpl. lia.
Defined.

(** C7 as stated fails: [turncoat] is neutral, not larger and without
    alliances, so none of the three rules of the claim rejects it, and it is
    rejected all the same, as a traitor. *)
Lemma shouldAcceptAllianceRequest_rejects_traitor :
  (Relation_value Neutral
   <= Relation_value (Player.relation nation turncoat))%Z
  /\ (List.length (Player.alliances turncoat) < 3)%nat
  /\ (Player.numTilesOwned turncoat <= Player.numTilesOwned nation * 3)%nat
  /\ shouldAcceptAllianceRequest nation (mkAllianceRequest turncoat) = false.
Proof. repeat split; simpl; lia. Qed.

(** ** Attacks *)

Lemma Double_eqb_eq (x y : Double.t) : Double.eqb x y = true -> x = y.
Proof.
  destruct x as [s|s| |s m e], y as [s'|s'| |s' m' e']; cbn [Double.eqb];
    try discriminate; try reflexivity.
  - intros Hs. apply Bool.eqb_prop in Hs. congruence.
  - intros Hs. apply Bool.eqb_prop in Hs. congruence.
  - intros Hall. apply andb_true_iff in Hall. destruct Hall as [Hall He].
    apply andb_true_iff in Hall. destruct Hall as [Hs Hm].
    apply Bool.eqb_prop in Hs. apply Pos.eqb_eq in Hm. apply Z.eqb_eq in He.
    congruence.
Qed.

Lemma in_exponents (k : Z) : (0 <= k <= 1074)%Z -> In k Double.exponents.
Proof.
  intros Hk. unfold Double.exponents.
  replace k with (Z.of_nat (Z.to_nat k)) by lia.
  apply in_map. apply in_seq. lia.
Qed.

(** Checked for each of the 1075 exponents *)
Lemma power_of_two_rounds_to_one (k : Z) :
  (0 <= k <= 1074)%Z ->
  binary_normalize Double.prec Double.emax (2 ^ k) (- k) false = Double.one.
Proof.
  intros Hk. apply Double_eqb_eq.
  assert (Hall : forallb Double.powerOfTwoRoundsToOne Double.exponents = true)
    by (vm_compute; reflexivity).
  rewrite forallb_forall in Hall. apply (Hall k (in_exponents k Hk)).
Qed.

Lemma power_of_two_not_below_one (k : Z) :
  (0 <= k <= 1074)%Z ->
  Double.fits (S754_finite false (Z.to_pos (2 ^ k)) (- k)) = true ->
  Double.ltb (S754_finite false (Z.to_pos (2 ^ k)) (- k)) Double.one = false.
Proof.
  intros Hk Hfits.
  assert (Hall : forallb Double.powerOfTwoNotBelowOne Double.exponents = true)
    by (vm_compute; reflexivity).
  rewrite forallb_forall in Hall. specialize (Hall k (in_exponents k Hk)).
  unfold Double.powerOfTwoNotBelowOne in Hall. rewrite Hfits in Hall.
  cbn [implb] in Hall. apply negb_true_iff in Hall. exact Hall.
Qed.

(** A shift to the right by one bit takes one bit off *)
Lemma digits_shr_1 (mrs : shr_record) :
  Zdigits2 (shr_m (shr_1 mrs)) = Z.max 0 (Zdigits2 (shr_m mrs) - 1).
Proof.
  destruct mrs as [m r s]. cbn [shr_1 shr_m].
  destruct m as [|[p|p|]|[p|p|]]; cbn [shr_m Zdigits2 digits2_pos]; lia.
Qed.

Lemma digits_iter_shr_1 (p : positive) :
  forall mrs : shr_record,
    Zdigits2 (shr_m (iter_pos shr_1 p mrs))
    = Z.max 0 (Zdigits2 (shr_m mrs) - Zpos p).
Proof.
  induction p as [p IH|p IH|]; intros mrs; cbn [iter_pos].
  - rewrite !IH, digits_shr_1. lia.
  - rewrite !IH. lia.
  - apply digits_shr_1.
Qed.

Lemma shr_m_of_loc (m : Z) (l : location) : shr_m (shr_record_of_loc m l) = m.
Proof. destruct l as [|[]]; reflexivity. Qed.

Lemma shr_fexp_fits (m e : Z) (l : location) (p : positive) :
  shr_m (fst (shr_fexp Double.prec Double.emax m e l)) = Zpos p ->
  (fexp Double.prec Double.emax
        (Zpos (digits2_pos p) + snd (shr_fexp Double.prec Double.emax m e l))
   <= snd (shr_fexp Double.prec Double.emax m e l))%Z.
Proof.
  unfold shr_fexp, shr.
  destruct (fexp Double.prec Double.emax (Zdigits2 m + e) - e)%Z
    as [|n|n] eqn:Hn; cbn [fst snd].
  - rewrite shr_m_of_loc. intros ->. cbn [Zdigits2] in Hn. lia.
  - intros Hm.
    pose proof (digits_iter_shr_1 n (shr_record_of_loc m l)) as Hd.
    rewrite Hm, shr_m_of_loc in Hd. cbn [Zdigits2] in Hd.
    assert (Hsame : (Zpos (digits2_pos p) + (e + Zpos n) = Zdigits2 m + e)%Z)
      by lia.
    rewrite Hsame. lia.
  - rewrite shr_m_of_loc. intros ->. cbn [Zdigits2] in Hn. lia.
Qed.

(** What rounding returns fits the format *)
Lemma binary_round_aux_fits (s : bool) (m e : Z) (l : location) :
  Double.fits (binary_round_aux Double.prec Double.emax s m e l) = true.
Proof.
  unfold binary_round_aux.
  destruct (shr_fexp Double.prec Double.emax m e l) as [mrs1 e1].
  pose proof (shr_fexp_fits
                (round_nearest_even (shr_m mrs1) (loc_of_shr_record mrs1))
                e1 loc_Exact) as Hfit.
  destruct (shr_fexp Double.prec Double.emax
                     (round_nearest_even (shr_m mrs1) (loc_of_shr_record mrs1))
                     e1 loc_Exact) as [mrs2 e2].
  cbn [fst snd] in Hfit.
  destruct (shr_m mrs2) as [|p|p]; try reflexivity.
  destruct (e2 <=? Double.emax - Double.prec)%Z; [|reflexivity].
  cbn [Double.fits]. apply Z.leb_le. apply Hfit. reflexivity.
Qed.

Lemma mul_fits (x y : Double.t) : Double.fits (Double.mul x y) = true.
Proof.
  destruct x as [sx|sx| |sx mx ex], y as [sy|sy| |sy my ey]; try reflexivity.
  apply binary_round_aux_fits.
Qed.

Lemma div_fits (x y : Double.t) : Double.fits (Double.div x y) = true.
Proof.
  destruct x as [sx|sx| |sx mx ex], y as [sy|sy| |sy my ey]; try reflexivity.
  unfold Double.div, SFdiv.
  destruct (SFdiv_core_binary Double.prec Double.emax (Zpos mx) ex (Zpos my) ey)
    as [[mz ez] lz].
  apply binary_round_aux_fits.
Qed.

Lemma fits_exponent (s : bool) (m : positive) (e : Z) :
  Double.fits (S754_finite s m e) = true -> (-1074 <= e)%Z.
Proof.
  cbn [Double.fits]. intros Hfit. apply Z.leb_le in Hfit.
  unfold fexp, emin, Double.prec, Double.emax in Hfit. lia.
Qed.

Lemma shl_align_value (m : positive) (e ez : Z) :
  (ez <= e)%Z ->
  inject_Z (Zpos (fst (shl_align m e ez))) * 2 ^ ez == inject_Z (Zpos m) * 2 ^ e.
Proof.
  intros Hle. unfold shl_align.
  destruct (ez - e)%Z as [|d|d] eqn:Hd; cbn [fst].
  - replace ez with e by lia. reflexivity.
  - lia.
  - change (Pos.iter xO m d) with (shift_pos d m).
    rewrite shift_pos_correct, Z.pow_pos_fold.
    assert (He : e = (Zpos d + ez)%Z) by lia.
    rewrite He.
    rewrite (Qpower_plus 2 (Zpos d) ez) by discriminate.
    rewrite inject_Z_mult, Zpower_Qpower by lia.
    change (inject_Z 2) with 2. ring.
Qed.

(** An integer times a power of two is 1 only as [2 ^ k * 2 ^ (- k)] *)
Lemma unit_power (M e : Z) :
  inject_Z M * 2 ^ e == 1 -> (e <= 0)%Z /\ M = (2 ^ (- e))%Z.
Proof.
  intros Hone.
  destruct (Z.le_gt_cases e 0) as [Hle|Hgt].
  - split; [exact Hle|].
    assert (He : e = (- (- e))%Z) by lia.
    remember (- e)%Z as k eqn:Hk. subst e.
    assert (Hk0 : (0 <= k)%Z) by lia.
    rewrite Qpower_opp in Hone.
    change 2 with (inject_Z 2) in Hone.
    rewrite <- (Zpower_Qpower 2 k Hk0) in Hone.
    assert (Hpos : (0 < 2 ^ k)%Z) by (apply Z.pow_pos_nonneg; lia).
    apply inject_Z_injective.
    assert (Hnz : ~ inject_Z (2 ^ k) == 0).
    { intros Hz. change 0 with (inject_Z 0) in Hz.
      apply (proj1 (inject_Z_injective _ _)) in Hz. lia. }
    rewrite <- (Qmult_1_l (inject_Z (2 ^ k))), <- Hone. field. exact Hnz.
  - exfalso.
    assert (He0 : (0 <= e)%Z) by lia.
    change 2 with (inject_Z 2) in Hone.
    rewrite <- (Zpower_Qpower 2 e He0), <- inject_Z_mult in Hone.
    change 1 with (inject_Z 1) in Hone. apply (proj1 (inject_Z_injective _ _)) in Hone.
    assert (Hbig : (2 <= 2 ^ e)%Z).
    { change 2%Z with (2 ^ 1)%Z at 1. apply Z.pow_le_mono_r; lia. }
    remember (2 ^ e)%Z as P eqn:HP. clear HP.
    assert (HM : (M <= 0 \/ 1 <= M)%Z) by lia.
    destruct HM as [HM|HM]; nia.
Qed.

Lemma unit_value_not_below_one (s : bool) (m : positive) (e : Z) :
  Double.fits (S754_finite s m e) = true ->
  Double.exactly (S754_finite s m e) 1 ->
  Double.ltb (S754_finite s m e) Double.one = false.
Proof.
  intros Hfit Hone. cbn [Double.exactly] in Hone. symmetry in Hone.
  apply unit_power in Hone. destruct Hone as [He Hm].
  pose proof (fits_exponent s m e Hfit) as Hlow.
  assert (Hpos : (0 < 2 ^ (- e))%Z) by (apply Z.pow_pos_nonneg; lia).
  destruct s; cbn [cond_Zopp] in Hm; [lia|].
  assert (Hmk : m = Z.to_pos (2 ^ (- e))) by (rewrite <- Hm; reflexivity).
  assert (Hek : e = (- (- e))%Z) by lia.
  revert Hfit. rewrite Hmk, Hek, Z.opp_involutive. rewrite <- Hek.
  replace e with (- (- e))%Z at 2 4 by lia.
  apply power_of_two_not_below_one. lia.
Qed.

Lemma aligned_value (s : bool) (m : positive) (e ez : Z) :
  (ez <= e)%Z ->
  inject_Z (cond_Zopp s (Zpos (fst (shl_align m e ez)))) * 2 ^ ez
  == inject_Z (cond_Zopp s (Zpos m)) * 2 ^ e.
Proof.
  intros Hle. pose proof (shl_align_value m e ez Hle) as Hv.
  destruct s; cbn [cond_Zopp]; [|exact Hv].
  rewrite !inject_Z_opp.
  setoid_replace (- inject_Z (Zpos (fst (shl_align m e ez))) * 2 ^ ez)
    with (- (inject_Z (Zpos (fst (shl_align m e ez))) * 2 ^ ez)) by ring.
  rewrite Hv. ring.
Qed.

(** The subtraction is exact when the difference is 1: two doubles whose
    values differ by exactly 1 have the difference [one] or, next to a
    zero, a number of value 1 that does not compare below [one]. *)
Lemma sub_one (X F : Double.t) (f : Q) :
  Double.fits X = true ->
  Double.fits F = true ->
  Double.exactly F f ->
  Double.exactly X (f + 1) ->
  Double.exactly (Double.sub X F) 1
  /\ Double.ltb (Double.sub X F) Double.one = false.
Proof.
  intros HfX HfF HF HX.
  destruct X as [sx|sx| |sx mx ex], F as [sy|sy| |sy my ey];
    cbn [Double.exactly] in HF, HX; try contradiction.
  - exfalso. lra.
  - assert (Hone : Double.exactly (S754_finite (negb sy) my ey) 1).
    { cbn [Double.exactly].
      destruct sy; cbn [negb cond_Zopp] in *.
      - rewrite inject_Z_opp in HF. lra.
      - rewrite inject_Z_opp. lra. }
    split; [exact Hone|].
    apply unit_value_not_below_one; [exact HfF|exact Hone].
  - assert (Hone : Double.exactly (S754_finite sx mx ex) 1).
    { cbn [Double.exactly]. lra. }
    split; [exact Hone|].
    apply unit_value_not_below_one; [exact HfX|exact Hone].
  - unfold Double.sub, SFsub.
    pose proof (fits_exponent _ _ _ HfX) as HlowX.
    pose proof (fits_exponent _ _ _ HfF) as HlowF.
    pose proof (aligned_value sx mx ex (Z.min ex ey) (Z.le_min_l ex ey)) as HvX.
    pose proof (aligned_value sy my ey (Z.min ex ey) (Z.le_min_r ex ey)) as HvY.
    assert (Hunit :
              inject_Z
                (cond_Zopp sx (Zpos (fst (shl_align mx ex (Z.min ex ey))))
                 - cond_Zopp sy (Zpos (fst (shl_align my ey (Z.min ex ey)))))
              * 2 ^ Z.min ex ey == 1).
    { unfold Z.sub. rewrite inject_Z_plus, inject_Z_opp. lra. }
    apply unit_power in Hunit. destruct Hunit as [Hez HM].
    rewrite HM.
    change (IntDef.Z.min ex ey) with (Z.min ex ey).
    assert (Hrounds :
              binary_normalize Double.prec Double.emax
                               (2 ^ (- Z.min ex ey)) (Z.min ex ey) false
              = Double.one).
    { replace (Z.min ex ey) with (- (- Z.min ex ey))%Z at 2 by lia.
      apply power_of_two_rounds_to_one. lia. }
    rewrite Hrounds.
    split; [|reflexivity].
    vm_compute. reflexivity.
Qed.

Lemma ofQ_fits (q : Q) : Double.fits (Double.ofQ q) = true.
Proof. apply div_fits. Qed.

(** C8. [sendAttack] adds nothing to the queue when the target is a player
    friendly to the controlled player.  Otherwise, with the reserve floor
    [maxTroops * reserveRatio] (player target) or [maxTroops * expandRatio]
    (unclaimed land) and [troops] the player's troops less that floor, both
    as the doubles the code computes, it adds nothing when [troops < 1] and
    else exactly one attack carrying [troops]; when the player's troops are
    exactly the floor plus one, the attack carries exactly one troop. *)
Theorem sendAttack_keeps_reserve :
  forall (R : Type) (PR : PseudoRandom R) (w : World) (b : BotBehavior R)
         (target : Entity) (queue : list Execution),
    let troops :=
      Double.sub (Double.ofQ (Player.troops (player w)))
                 (reserveFloor w b target) in
    (forall p, reserveFloor w b (APlayer p)
               = Double.mul (Double.ofQ (maxTroops w (player w)))
                            (Double.ofQ (reserveRatio b)))
    /\ reserveFloor w b TerraNullius
       = Double.mul (Double.ofQ (maxTroops w (player w)))
                    (Double.ofQ (expandRatio b))
    /\ (forall p, target = APlayer p ->
                  Player.isFriendly (player w) p = true ->
                  sendAttack w b target queue = queue)
    /\ ((forall p, target = APlayer p ->
                   Player.isFriendly (player w) p = false) ->
        (Double.ltb troops Double.one = true ->
         sendAttack w b target queue = queue)
        /\ (Double.ltb troops Double.one = false ->
            sendAttack w b target queue
            = queue ++ [AttackExecution troops (player w) (targetIDOf w target)])
        /\ (forall floor : Q,
               Double.exactly (reserveFloor w b target) floor ->
               Double.exactly (Double.ofQ (Player.troops (player w)))
                              (floor + 1) ->
               exists sent,
                 Double.exactly sent 1
                 /\ sendAttack w b target queue
                    = queue ++ [AttackExecution sent (player w)
                                                (targetIDOf w target)])).
Proof.
  intros R PR w b target queue troops.
  split; [reflexivity|]. split; [reflexivity|]. split.
  - intros p -> Hf. unfold sendAttack. rewrite Hf. reflexivity.
  - intros Hfoe.
    assert (Hsend :
              sendAttack w b target queue
              = if Double.ltb troops Double.one then queue
                else queue ++ [AttackExecution troops (player w)
                                               (targetIDOf w target)]).
    { unfold sendAttack. destruct target as [p|].
      - rewrite (Hfoe p eq_refl). reflexivity.
      - reflexivity. }
    rewrite Hsend. repeat split.
    + intros ->. reflexivity.
    + intros ->. reflexivity.
    + intros floor Hfloor Htroops. exists troops.
      destruct (sub_one (Double.ofQ (Player.troops (player w)))
                        (reserveFloor w b target) floor)
        as [Hone Hcmp];
        [apply ofQ_fits|apply mul_fits|exact Hfloor|exact Htroops|].
      fold troops in Hone, Hcmp. rewrite Hcmp.
      split; [exact Hone|reflexivity].
Qed.

(** [recruit] has 51 troops and keeps 100 * 0.5 = 50 against a player: one
    troop leaves. *)
Lemma sendAttack_keeps_reserve_witness :
  exists sent,
    Double.exactly sent 1
    /\ sendAttack (worldOf recruit 2 [APlayer raider] []) (fresh [])
                  (APlayer raider) []
       = [] ++ [AttackExecution sent recruit (Some "raider"%string)].
Proof.
  pose proof (sendAttack_keeps_reserve
                (list bool) scripted (worldOf recruit 2 [APlayer raider] [])
                (fresh []) (APlayer raider) []) as Hsend.
  destruct Hsend as (_ & _ & _ & Hfoe).
  destruct Hfoe as (_ & _ & Hone).
  - intros p Hp. injection Hp as <-. reflexivity.
  - apply (Hone 50).
    + vm_compute. reflexivity.
    + vm_compute. reflexivity.
Defined.

(** ** Worked cases *)

(** Two adjacent bots of densities 5 and 2: the one of density 2 is chosen. *)
Example selectEnemy_densities_5_and_2 :
  fst (selectEnemy (worldWith 0 [APlayer dense; APlayer sparse] []) (fresh []))
  = Some sparse.
Proof. reflexivity. Qed.

(** Of two bots of density 2, the one enumerated first is chosen. *)
Example selectEnemy_tie_keeps_first :
  fst (selectEnemy (worldWith 0 [APlayer sparse; APlayer sparse'] []) (fresh []))
  = Some sparse
  /\ fst (selectEnemy (worldWith 0 [APlayer sparse'; APlayer sparse] [])
                      (fresh []))
     = Some sparse'.
Proof. split; reflexivity. Qed.

(** A bot without tiles next to one with tiles: the latter is chosen. *)
Example selectEnemy_passes_over_landless :
  fst (selectEnemy (worldWith 0 [APlayer landless; APlayer dense] []) (fresh []))
  = Some dense.
Proof. reflexivity. Qed.

(** Attacked by 10 and by 25 troops with no neighbor to pick, the random
    selection retaliates against the attacker with 25. *)
Example selectRandomEnemy_retaliates_against_25 :
  fst (selectRandomEnemy
         (worldWith 0 [TerraNullius]
                    [Attack.mk dense 10; Attack.mk raider 25])
         (fresh []))
  = Some raider.
Proof. reflexivity. Qed.

(** In the walk the first qualifying neighbor does not win. *)
Example neighborWalk_first_does_not_win :
  enemy (neighborWalk (worldWith 0 [] []) [APlayer raider; APlayer sparse]
                      (fresh []))
  = Some sparse.
Proof. reflexivity. Qed.

(** 80 troops against a floor of 50 send 30; against unclaimed land the floor
    is 100 * 0.1 = 10 and 70 leave; an ally is never attacked. *)
Example sendAttack_cases :
  sendAttack (worldWith 0 [] []) (fresh []) (APlayer raider) []
  = [AttackExecution (Double.ofQ 30) nation (Some "raider"%string)]
  /\ sendAttack (worldWith 0 [] []) (fresh []) TerraNullius []
     = [AttackExecution (Double.ofQ 70) nation None]
  /\ sendAttack (worldWith 0 [] []) (fresh []) (APlayer ally) [] = [].
Proof. repeat split. Qed.

(** With a floor of 90 above its 80 troops the bot sends nothing. *)
Example sendAttack_floor_above_troops :
  sendAttack (worldWith 0 [] [])
             (mkBotBehavior ([] : list bool) None None (1 # 2) (9 # 10) (1 # 10))
             (APlayer raider) []
  = [].
Proof. reflexivity. Qed.

(** Rounding decides: 100 * 0.07 is the double above 7, so 8 troops are
    short of the floor plus one and nothing leaves, and likewise 56 troops
    at 0.55; 100 * 0.1 is the double 10, so 11 troops send exactly one. *)
Example sendAttack_rounds_like_doubles :
  sendAttack (worldOf (soldier 8) 0 [] []) (holding (7 # 100))
             (APlayer raider) []
  = []
  /\ sendAttack (worldOf (soldier 56) 0 [] []) (holding (55 # 100))
                (APlayer raider) []
     = []
  /\ sendAttack (worldOf (soldier 11) 0 [] []) (holding (1 # 10))
                (APlayer raider) []
     = [AttackExecution Double.one (soldier 11) (Some "raider"%string)]
  /\ sendAttack (worldOf (soldier 11) 0 [] [])
                (holding (3602879701896397 # 36028797018963968))
                (APlayer raider) []
     = [AttackExecution Double.one (soldier 11) (Some "raider"%string)].
Proof. repeat split. Qed.

(** Before any enemy was ever set [enemyUpdated] is undefined and nothing
    is forgotten. *)
Example forgetOldEnemies_before_first_enemy :
  forgetOldEnemies (worldWith 5000 [] []) (fresh []) = fresh [].
Proof. reflexivity. Qed.

(** * Further properties of the controller *)

(** ** Selection: the paths around the first choice *)

Section Selection.

Context {R : Type} `{PseudoRandom R}.

Lemma sameRatios_refl (b : BotBehavior R) : sameRatios b b.
Proof. repeat split. Qed.

Lemma sameRatios_trans (b1 b2 b3 : BotBehavior R) :
  sameRatios b1 b2 -> sameRatios b2 b3 -> sameRatios b1 b3.
Proof.
  intros (Ht & Hr & He) (Ht' & Hr' & He').
  repeat split; congruence.
Qed.

Lemma checkIncomingAttacks_keeps (w : World) (b : BotBehavior R) :
  (stamped w b -> stamped w (checkIncomingAttacks w b))
  /\ sameRatios b (checkIncomingAttacks w b)
  /\ random (checkIncomingAttacks w b) = random b.
Proof.
  unfold checkIncomingAttacks.
  destruct (snd (largestAttackLoop (incomingAttacks w) 0 None)).
  - repeat split. intros _. right. reflexivity.
  - repeat split. intros Hs. exact Hs.
Qed.

Lemma retaliate_keeps (w : World) (b : BotBehavior R) :
  (stamped w b -> stamped w (retaliate w b))
  /\ sameRatios b (retaliate w b)
  /\ random (retaliate w b) = random b.
Proof.
  unfold retaliate. destruct (enemy b) eqn:He.
  - repeat split. intros Hs. exact Hs.
  - apply checkIncomingAttacks_keeps.
Qed.

Lemma preferNeighboringBots_keeps (w : World) (b : BotBehavior R) :
  (stamped w b -> stamped w (preferNeighboringBots w b))
  /\ sameRatios b (preferNeighboringBots w b)
  /\ random (preferNeighboringBots w b) = random b.
Proof.
  unfold preferNeighboringBots.
  destruct (neighborBots (neighbors w)) as [|bot rest].
  - repeat split. intros Hs. exact Hs.
  - destruct (fst (lowestDensityLoop (bot :: rest) None Num.PosInfinity)).
    + repeat split. intros _. right. reflexivity.
    + repeat split. intros Hs. exact Hs.
Qed.

Lemma selectMostHated_keeps (w : World) (b : BotBehavior R) :
  (stamped w b -> stamped w (selectMostHated w b))
  /\ sameRatios b (selectMostHated w b)
  /\ random (selectMostHated w b) = random b.
Proof.
  unfold selectMostHated.
  destruct (enemy b); [repeat split; intros Hs; exact Hs|].
  destruct (hd_error (allRelationsSorted w)) as [[mostHated rel]|];
    [|repeat split; intros Hs; exact Hs].
  destruct (Relation_eqb rel Hostile).
  - repeat split. intros _. right. reflexivity.
  - repeat split. intros Hs. exact Hs.
Qed.

Lemma neighborWalk_keeps (w : World) (shuffled : list Entity) :
  forall b : BotBehavior R,
    (stamped w b -> stamped w (neighborWalk w shuffled b))
    /\ sameRatios b (neighborWalk w shuffled b).
Proof.
  intros b. rewrite neighborWalk_lastChoice.
  destruct (qualifying w shuffled (random b)) as [ps r]. cbn [fst snd].
  unfold lastChoice. destruct (rev ps).
  - repeat split. intros Hs. exact Hs.
  - repeat split. intros _. right. reflexivity.
Qed.

Lemma selectTraitor_keeps (w : World) (b : BotBehavior R) :
  (stamped w b -> stamped w (selectTraitor w b))
  /\ sameRatios b (selectTraitor w b).
Proof.
  unfold selectTraitor, getNeighborTraitorToAttack.
  destruct (enemy b) eqn:He; [repeat split; intros Hs; exact Hs|].
  destruct (neighborTraitors (neighbors w)) as [|t ts].
  - repeat split. intros Hs. exact Hs.
  - destruct (randElement (t :: ts) (random b)) as [[traitor|] r].
    + destruct (Player.isFriendly (player w) traitor).
      * repeat split. intros Hs. exact Hs.
      * cbn [setRandom random].
        destruct (chance 3 r) as [commit r'].
        destruct commit.
        -- repeat split. intros _. right. reflexivity.
        -- repeat split. intros Hs. exact Hs.
    + repeat split. intros Hs. exact Hs.
Qed.

Lemma enemySanityCheck_keeps (w : World) (b : BotBehavior R) :
  (stamped w b -> stamped w (snd (enemySanityCheck w b)))
  /\ sameRatios b (snd (enemySanityCheck w b))
  /\ enemyUpdated (snd (enemySanityCheck w b)) = enemyUpdated b
  /\ random (snd (enemySanityCheck w b)) = random b.
Proof.
  rewrite enemySanityCheck_cases.
  destruct (enemy b) as [e|]; [destruct (Player.isFriendly (player w) e)|].
  - repeat split. intros _. left. reflexivity.
  - repeat split. intros Hs. exact Hs.
  - repeat split. intros Hs. exact Hs.
Qed.

Lemma stamped_of_none (w : World) (b : BotBehavior R) :
  enemy b = None -> stamped w b.
Proof. intros Hnone. left. exact Hnone. Qed.

Lemma stamped_setRandom (w : World) (r : R) (b : BotBehavior R) :
  stamped w b -> stamped w (setRandom r b).
Proof. intros Hs. exact Hs. Qed.

Lemma selectEnemy_keeps (w : World) (b : BotBehavior R) :
  (enemy b = None -> stamped w (snd (selectEnemy w b)))
  /\ sameRatios b (snd (selectEnemy w b))
  /\ random (snd (selectEnemy w b)) = random b.
Proof.
  unfold selectEnemy. destruct (enemy b) as [e|] eqn:He.
  - split; [discriminate|].
    destruct (enemySanityCheck_keeps w b) as (_ & Hr & _ & Hg).
    split; assumption.
  - destruct (negb (hasSufficientTroops w b)).
    + repeat split. intros _. left. exact He.
    + destruct (preferNeighboringBots_keeps w b) as (S1 & R1 & G1).
      destruct (retaliate_keeps w (preferNeighboringBots w b)) as (S2 & R2 & G2).
      destruct (selectMostHated_keeps
                  w (retaliate w (preferNeighboringBots w b))) as (S3 & R3 & G3).
      destruct (enemySanityCheck_keeps
                  w (selectMostHated w (retaliate w (preferNeighboringBots w b))))
        as (S4 & R4 & _ & G4).
      split; [|split].
      * intros _. apply S4, S3, S2, S1. left. exact He.
      * apply (sameRatios_trans _ _ _ R1).
        apply (sameRatios_trans _ _ _ R2).
        apply (sameRatios_trans _ _ _ R3). exact R4.
      * congruence.
Qed.

Lemma selectRandomEnemy_keeps (w : World) (b : BotBehavior R) :
  (enemy b = None -> stamped w (snd (selectRandomEnemy w b)))
  /\ sameRatios b (snd (selectRandomEnemy w b)).
Proof.
  unfold selectRandomEnemy. destruct (enemy b) as [e|] eqn:He.
  - split; [discriminate|].
    destruct (enemySanityCheck_keeps w b) as (_ & Hr & _). exact Hr.
  - destruct (negb (hasSufficientTroops w b)).
    + repeat split. intros _. left. exact He.
    + destruct (shuffleArray (neighbors w) (random b)) as [shuffled r].
      destruct (neighborWalk_keeps w shuffled (setRandom r b)) as (S1 & R1).
      destruct (retaliate_keeps w (neighborWalk w shuffled (setRandom r b)))
        as (S2 & R2 & _).
      destruct (selectTraitor_keeps
                  w (retaliate w (neighborWalk w shuffled (setRandom r b))))
        as (S3 & R3).
      destruct (enemySanityCheck_keeps
                  w (selectTraitor
                       w (retaliate w (neighborWalk w shuffled (setRandom r b)))))
        as (S4 & R4 & _).
      split.
      * intros _. apply S4, S3, S2, S1. left. exact He.
      * apply (sameRatios_trans _ (setRandom r b)); [repeat split|].
        apply (sameRatios_trans _ _ _ R1).
        apply (sameRatios_trans _ _ _ R2).
        apply (sameRatios_trans _ _ _ R3). exact R4.
Qed.

Lemma selectEnemy_returns_stored (w : World) (b : BotBehavior R) :
  fst (selectEnemy w b) = enemy (snd (selectEnemy w b)).
Proof.
  unfold selectEnemy. destruct (enemy b) eqn:He; [reflexivity|].
  destruct (negb (hasSufficientTroops w b)); [|reflexivity].
  symmetry. exact He.
Qed.

Lemma selectRandomEnemy_returns_stored (w : World) (b : BotBehavior R) :
  fst (selectRandomEnemy w b) = enemy (snd (selectRandomEnemy w b)).
Proof.
  unfold selectRandomEnemy. destruct (enemy b) eqn:He; [reflexivity|].
  destruct (negb (hasSufficientTroops w b)); [symmetry; exact He|].
  destruct (shuffleArray (neighbors w) (random b)). reflexivity.
Qed.

Lemma sendAttack_reads_ratios (w : World) (b b' : BotBehavior R)
      (target : Entity) (queue : list Execution) :
  sameRatios b b' -> sendAttack w b' target queue = sendAttack w b target queue.
Proof.
  intros (_ & Hr & He). unfold sendAttack. rewrite Hr, He. reflexivity.
Qed.

Lemma neighborTraitors_In (ns : list Entity) (p : Player.t) :
  In p (neighborTraitors ns) <->
  In (APlayer p) ns /\ Player.isTraitor p = true.
Proof.
  induction ns as [|[q|] rest IH]; cbn [neighborTraitors].
  - split; [intros []|intros [[] _]].
  - destruct (Player.isTraitor q) eqn:Hq.
    + split.
      * intros [<-|Hin]; [split; [left; reflexivity|exact Hq]|].
        apply IH in Hin. destruct Hin as [Hin Ht]. split; [right|]; assumption.
      * intros [[Heq|Hin] Ht].
        -- injection Heq as <-. left. reflexivity.
        -- right. apply IH. split; assumption.
    + split.
      * intros Hin. apply IH in Hin. destruct Hin as [Hin Ht].
        split; [right|]; assumption.
      * intros [[Heq|Hin] Ht].
        -- injection Heq as <-. congruence.
        -- apply IH. split; assumption.
  - split.
    + intros Hin. apply IH in Hin. destruct Hin as [Hin Ht].
      split; [right|]; assumption.
    + intros [[Heq|Hin] Ht]; [discriminate|].
      apply IH. split; assumption.
Qed.

Lemma checkIncomingAttacks_first_largest (w : World) (b : BotBehavior R) :
  Exists (fun a => 0 < Attack.troops a) (incomingAttacks w) ->
  exists l1 a l2,
    incomingAttacks w = l1 ++ a :: l2
    /\ Forall (fun x => Attack.troops x < Attack.troops a) l1
    /\ Forall (fun x => Attack.troops x <= Attack.troops a) l2
    /\ checkIncomingAttacks w b = setNewEnemy w (Some (Attack.attacker a)) b.
Proof.
  intros Hpos. unfold checkIncomingAttacks.
  destruct (largestAttackLoop_spec (incomingAttacks w) 0 None)
    as [[_ Hall]|(l1 & a & l2 & Heq & Hres & _ & H1 & H2)].
  - exfalso. apply Exists_exists in Hpos. destruct Hpos as (a & Hin & Ha).
    rewrite Forall_forall in Hall. specialize (Hall a Hin). lra.
  - exists l1, a, l2. rewrite Hres. repeat split; assumption.
Qed.

Lemma neighborWalk_nobody (w : World) (shuffled : list Entity)
      (b : BotBehavior R) (r0 r1 : R) :
  qualifying w shuffled r0 = ([], r1) ->
  neighborWalk w shuffled (setRandom r0 b) = setRandom r1 b.
Proof.
  intros Hq. rewrite neighborWalk_lastChoice. cbn [setRandom random].
  rewrite Hq. reflexivity.
Qed.

(** When nobody qualifies in the walk, the selection goes on from the
    state the walk found, the generator apart. *)
Lemma selectRandomEnemy_nobody (w : World) (b : BotBehavior R)
      (shuffled : list Entity) (r0 r1 : R) :
  enemy b = None ->
  hasSufficientTroops w b = true ->
  shuffleArray (neighbors w) (random b) = (shuffled, r0) ->
  qualifying w shuffled r0 = ([], r1) ->
  selectRandomEnemy w b
  = enemySanityCheck
      w (selectTraitor w (checkIncomingAttacks w (setRandom r1 b))).
Proof.
  intros Hnone Hready Hshuffle Hq.
  unfold selectRandomEnemy. rewrite Hnone, Hready, Hshuffle. cbn [negb].
  rewrite (neighborWalk_nobody w shuffled b r0 r1 Hq).
  unfold retaliate.
  assert (Hn : enemy (setRandom r1 b) = None) by exact Hnone.
  rewrite Hn. reflexivity.
Qed.

Lemma enemySanityCheck_returns (w : World) (b : BotBehavior R) (e : Player.t) :
  fst (enemySanityCheck w b) = Some e -> enemy b = Some e.
Proof.
  rewrite enemySanityCheck_cases.
  destruct (enemy b) as [e'|]; [|discriminate].
  destruct (Player.isFriendly (player w) e'); [discriminate|].
  intros Heq. exact Heq.
Qed.

Lemma selectTraitor_nobody (w : World) (b : BotBehavior R) :
  neighborTraitors (neighbors w) = [] -> selectTraitor w b = b.
Proof.
  intros Hnobody. unfold selectTraitor, getNeighborTraitorToAttack.
  rewrite Hnobody. destruct (enemy b); reflexivity.
Qed.

Lemma selectTraitor_sets_traitor (w : World) (b : BotBehavior R) (e : Player.t) :
  randElementPicks ->
  enemy b = None ->
  enemy (selectTraitor w b) = Some e ->
  In (APlayer e) (neighbors w) /\ Player.isTraitor e = true.
Proof.
  intros Hpick Hnone. unfold selectTraitor, getNeighborTraitorToAttack.
  rewrite Hnone.
  destruct (neighborTraitors (neighbors w)) as [|t ts] eqn:Ht.
  - rewrite Hnone. discriminate.
  - destruct (randElement (t :: ts) (random b)) as [[traitor|] r] eqn:Hrand.
    + assert (Hin : In traitor (t :: ts))
        by (apply (Hpick (t :: ts) (random b)); rewrite Hrand; reflexivity).
      rewrite <- Ht in Hin. apply neighborTraitors_In in Hin.
      destruct (Player.isFriendly (player w) traitor).
      * cbn [setRandom enemy]. rewrite Hnone. discriminate.
      * cbn [setRandom random].
        destruct (chance 3 r) as [commit r']. destruct commit.
        -- cbn [setNewEnemy enemy]. intros [= <-]. exact Hin.
        -- cbn [setRandom enemy]. rewrite Hnone. discriminate.
    + cbn [setRandom enemy]. rewrite Hnone. discriminate.
Qed.

Lemma selectEnemy_not_friendly (w : World) (b : BotBehavior R) (e : Player.t) :
  fst (selectEnemy w b) = Some e -> Player.isFriendly (player w) e = false.
Proof.
  unfold selectEnemy. destruct (enemy b).
  - apply enemySanityCheck_not_friendly.
  - destruct (negb (hasSufficientTroops w b)); [discriminate|].
    apply enemySanityCheck_not_friendly.
Qed.

Lemma selectRandomEnemy_not_friendly (w : World) (b : BotBehavior R)
      (e : Player.t) :
  fst (selectRandomEnemy w b) = Some e ->
  Player.isFriendly (player w) e = false.
Proof.
  unfold selectRandomEnemy. destruct (enemy b).
  - apply enemySanityCheck_not_friendly.
  - destruct (negb (hasSufficientTroops w b)); [discriminate|].
    destruct (shuffleArray (neighbors w) (random b)) as [shuffled r].
    apply enemySanityCheck_not_friendly.
Qed.

Lemma sendAttack_at_foe (w : World) (b : BotBehavior R) (e : Player.t)
      (queue : list Execution) :
  Player.isFriendly (player w) e = false ->
  sendAttack w b (APlayer e) queue
  = if Double.ltb (Double.sub (Double.ofQ (Player.troops (player w)))
                              (reserveFloor w b (APlayer e)))
                  Double.one
    then queue
    else queue ++ [AttackExecution
                     (Double.sub (Double.ofQ (Player.troops (player w)))
                                 (reserveFloor w b (APlayer e)))
                     (player w) (Some (Player.id e))].
Proof.
  intros Hfoe. unfold sendAttack. rewrite Hfoe. reflexivity.
Qed.

End Selection.

(** X1. With an enemy already set, [selectEnemy] and [selectRandomEnemy]
    neither look at the troops nor pick anybody new: they return the enemy
    with the state untouched (the tick of the choice is not refreshed, the
    generator not consulted), unless the enemy has become friendly, in which
    case they clear it and return null. *)
Theorem selection_keeps_committed_enemy :
  forall (R : Type) (PR : PseudoRandom R) (w : World) (b : BotBehavior R)
         (e : Player.t),
    enemy b = Some e ->
    selectEnemy w b
    = (if Player.isFriendly (player w) e then (None, clearEnemy b)
       else (Some e, b))
    /\ selectRandomEnemy w b
       = (if Player.isFriendly (player w) e then (None, clearEnemy b)
          else (Some e, b)).
Proof.
  intros R PR w b e He.
  unfold selectEnemy, selectRandomEnemy.
  rewrite He, enemySanityCheck_cases, He. split; reflexivity.
Qed.

(** [warlord], far from its trigger ratio and next to a sparse bot, stays
    on [raider]; once [comrade] is its enemy and an ally, it drops it. *)
Lemma selection_keeps_committed_enemy_witness :
  selectEnemy (worldOf warlord 90 [APlayer sparse] []) (engaged [true] raider)
  = (Some raider, engaged [true] raider)
  /\ selectRandomEnemy (worldOf warlord 90 [APlayer sparse] [])
                       (engaged [true] comrade)
     = (None, clearEnemy (engaged [true] comrade)).
Proof.
  split.
  - apply (proj1 (selection_keeps_committed_enemy
                    (list bool) scripted
                    (worldOf warlord 90 [APlayer sparse] [])
                    (engaged [true] raider) raider eq_refl)).
  - apply (proj2 (selection_keeps_committed_enemy
                    (list bool) scripted
                    (worldOf warlord 90 [APlayer sparse] [])
                    (engaged [true] comrade) comrade eq_refl)).
Defined.

(** X2. Both selection methods return the enemy they leave in the state
    and never change the three ratios; [selectEnemy] never consults the
    random generator. *)
Theorem selection_returns_stored_enemy :
  forall (R : Type) (PR : PseudoRandom R) (w : World) (b : BotBehavior R),
    fst (selectEnemy w b) = enemy (snd (selectEnemy w b))
    /\ fst (selectRandomEnemy w b) = enemy (snd (selectRandomEnemy w b))
    /\ sameRatios b (snd (selectEnemy w b))
    /\ sameRatios b (snd (selectRandomEnemy w b))
    /\ random (snd (selectEnemy w b)) = random b.
Proof.
  intros R PR w b.
  split; [apply selectEnemy_returns_stored|].
  split; [apply selectRandomEnemy_returns_stored|].
  split; [apply selectEnemy_keeps|].
  split; [apply selectRandomEnemy_keeps|apply selectEnemy_keeps].
Qed.

(** X3. An enemy that a selection method picks when none was set carries
    the current tick, so [forgetOldEnemies] leaves the state alone at every
    tick up to 100 ticks later. *)
Theorem fresh_enemy_is_timestamped :
  forall (R : Type) (PR : PseudoRandom R) (w : World) (b : BotBehavior R)
         (e : Player.t),
    enemy b = None ->
    (fst (selectEnemy w b) = Some e ->
     enemyUpdated (snd (selectEnemy w b)) = Some (ticks w)
     /\ forall w', (ticks w' - ticks w <= 100)%Z ->
                   forgetOldEnemies w' (snd (selectEnemy w b))
                   = snd (selectEnemy w b))
    /\ (fst (selectRandomEnemy w b) = Some e ->
        enemyUpdated (snd (selectRandomEnemy w b)) = Some (ticks w)
        /\ forall w', (ticks w' - ticks w <= 100)%Z ->
                      forgetOldEnemies w' (snd (selectRandomEnemy w b))
                      = snd (selectRandomEnemy w b)).
Proof.
  intros R PR w b e Hnone. split; intros Hres.
  - assert (Hu : enemyUpdated (snd (selectEnemy w b)) = Some (ticks w)).
    { destruct (proj1 (selectEnemy_keeps w b) Hnone) as [Hn|Hu]; [|exact Hu].
      rewrite selectEnemy_returns_stored, Hn in Hres. discriminate. }
    split; [exact Hu|].
    intros w' Hle. apply (forgetOldEnemies_keeps _ _ (ticks w) Hu Hle).
  - assert (Hu : enemyUpdated (snd (selectRandomEnemy w b)) = Some (ticks w)).
    { destruct (proj1 (selectRandomEnemy_keeps w b) Hnone) as [Hn|Hu];
        [|exact Hu].
      rewrite selectRandomEnemy_returns_stored, Hn in Hres. discriminate. }
    split; [exact Hu|].
    intros w' Hle. apply (forgetOldEnemies_keeps _ _ (ticks w) Hu Hle).
Qed.

Lemma fresh_enemy_is_timestamped_witness :
  enemyUpdated
    (snd (selectEnemy (worldWith 12 [APlayer dense; APlayer sparse] [])
                      (fresh [])))
  = Some 12%Z.
Proof.
  apply (proj1 (fresh_enemy_is_timestamped
                  (list bool) scripted
                  (worldWith 12 [APlayer dense; APlayer sparse] [])
                  (fresh []) sparse eq_refl)).
  reflexivity.
Defined.

(** X4. Without an adjacent Bot, [selectEnemy] (no enemy set, troops
    sufficient) retaliates before it looks at relations: when some incoming
    attack carries troops, it returns the attacker of the first largest
    attack, or null (enemy cleared) if that attacker is friendly. *)
Theorem selectEnemy_retaliates_without_bots :
  forall (R : Type) (PR : PseudoRandom R) (w : World) (b : BotBehavior R),
    enemy b = None ->
    hasSufficientTroops w b = true ->
    neighborBots (neighbors w) = [] ->
    Exists (fun a => 0 < Attack.troops a) (incomingAttacks w) ->
    exists l1 a l2,
      incomingAttacks w = l1 ++ a :: l2
      /\ Forall (fun x => Attack.troops x < Attack.troops a) l1
      /\ Forall (fun x => Attack.troops x <= Attack.troops a) l2
      /\ selectEnemy w b
         = if Player.isFriendly (player w) (Attack.attacker a)
           then (None,
                 clearEnemy (setNewEnemy w (Some (Attack.attacker a)) b))
           else (Some (Attack.attacker a),
                 setNewEnemy w (Some (Attack.attacker a)) b).
Proof.
  intros R PR w b Hnone Hready Hbots Hpos.
  destruct (checkIncomingAttacks_first_largest w b Hpos)
    as (l1 & a & l2 & Heq & H1 & H2 & Hset).
  exists l1, a, l2. repeat split; try assumption.
  rewrite (selectEnemy_ready w b Hnone Hready).
  unfold preferNeighboringBots. rewrite Hbots.
  unfold retaliate. rewrite Hnone, Hset.
  rewrite enemySanityCheck_cases. reflexivity.
Qed.

(** Without bots around and attacked by 10, 25 and 25 troops, [nation]
    turns on the first attacker with 25. *)
Lemma selectEnemy_retaliates_without_bots_witness :
  exists l1 a l2,
    [Attack.mk dense 10; Attack.mk raider 25; Attack.mk mimic 25]
    = l1 ++ a :: l2
    /\ Forall (fun x => Attack.troops x < Attack.troops a) l1
    /\ Forall (fun x => Attack.troops x <= Attack.troops a) l2
    /\ selectEnemy
         (worldWith 3 [APlayer mimic; TerraNullius]
                    [Attack.mk dense 10; Attack.mk raider 25;
                     Attack.mk mimic 25])
         (fresh [])
       = if Player.isFriendly nation (Attack.attacker a)
         then (None,
               clearEnemy
                 (setNewEnemy
                    (worldWith 3 [APlayer mimic; TerraNullius]
                               [Attack.mk dense 10; Attack.mk raider 25;
                                Attack.mk mimic 25])
                    (Some (Attack.attacker a)) (fresh [])))
         else (Some (Attack.attacker a),
               setNewEnemy
                 (worldWith 3 [APlayer mimic; TerraNullius]
                            [Attack.mk dense 10; Attack.mk raider 25;
                             Attack.mk mimic 25])
                 (Some (Attack.attacker a)) (fresh [])).
Proof.
  apply (selectEnemy_retaliates_without_bots
           (list bool) scripted
           (worldWith 3 [APlayer mimic; TerraNullius]
                      [Attack.mk dense 10; Attack.mk raider 25;
                       Attack.mk mimic 25])
           (fresh [])).
  - reflexivity.
  - reflexivity.
  - reflexivity.
  - apply Exists_cons_hd. simpl. lra.
Defined.

(** X5. Without an adjacent Bot and without an incoming attack that
    carries troops, [selectEnemy] (no enemy set, troops sufficient) looks
    at the head of the sorted relations only: if its relation is Hostile
    that player is returned (or cleared, if friendly); in every other case
    the call returns null and leaves the state unchanged. *)
Theorem selectEnemy_most_hated_last :
  forall (R : Type) (PR : PseudoRandom R) (w : World) (b : BotBehavior R),
    enemy b = None ->
    hasSufficientTroops w b = true ->
    neighborBots (neighbors w) = [] ->
    Forall (fun a => Attack.troops a <= 0) (incomingAttacks w) ->
    selectEnemy w b
    = match hd_error (allRelationsSorted w) with
      | Some (mostHated, Hostile) =>
          if Player.isFriendly (player w) mostHated
          then (None, clearEnemy (setNewEnemy w (Some mostHated) b))
          else (Some mostHated, setNewEnemy w (Some mostHated) b)
      | _ => (None, b)
      end.
Proof.
  intros R PR w b Hnone Hready Hbots Hquiet.
  rewrite (selectEnemy_ready w b Hnone Hready).
  unfold preferNeighboringBots. rewrite Hbots.
  unfold retaliate. rewrite Hnone.
  rewrite (checkIncomingAttacks_nothing_positive w b Hquiet).
  unfold selectMostHated. rewrite Hnone.
  destruct (hd_error (allRelationsSorted w)) as [[mostHated rel]|].
  - destruct rel; cbn [Relation_eqb Relation_value Z.eqb];
      rewrite enemySanityCheck_cases; try rewrite Hnone; reflexivity.
  - rewrite enemySanityCheck_cases, Hnone. reflexivity.
Qed.

Lemma selectEnemy_most_hated_last_witness :
  selectEnemy resentful (fresh [])
  = (Some foe, setNewEnemy resentful (Some foe) (fresh [])).
Proof.
  rewrite (selectEnemy_most_hated_last (list bool) scripted resentful (fresh [])).
  - reflexivity.
  - reflexivity.
  - reflexivity.
  - reflexivity.
  - repeat constructor. simpl. lra.
Defined.

(** X6. When no neighbor of the walk qualifies, [selectRandomEnemy] (no
    enemy set, troops sufficient) retaliates: when some incoming attack
    carries troops, it returns the attacker of the first largest attack, or
    null (enemy cleared) if that attacker is friendly. *)
Theorem selectRandomEnemy_retaliates_when_none_qualifies :
  forall (R : Type) (PR : PseudoRandom R) (w : World) (b : BotBehavior R)
         (shuffled : list Entity) (r0 r1 : R),
    enemy b = None ->
    hasSufficientTroops w b = true ->
    shuffleArray (neighbors w) (random b) = (shuffled, r0) ->
    qualifying w shuffled r0 = ([], r1) ->
    Exists (fun a => 0 < Attack.troops a) (incomingAttacks w) ->
    exists l1 a l2,
      incomingAttacks w = l1 ++ a :: l2
      /\ Forall (fun x => Attack.troops x < Attack.troops a) l1
      /\ Forall (fun x => Attack.troops x <= Attack.troops a) l2
      /\ selectRandomEnemy w b
         = if Player.isFriendly (player w) (Attack.attacker a)
           then (None,
                 clearEnemy (setNewEnemy w (Some (Attack.attacker a))
                                         (setRandom r1 b)))
           else (Some (Attack.attacker a),
                 setNewEnemy w (Some (Attack.attacker a)) (setRandom r1 b)).
Proof.
  intros R PR w b shuffled r0 r1 Hnone Hready Hshuffle Hq Hpos.
  destruct (checkIncomingAttacks_first_largest w (setRandom r1 b) Hpos)
    as (l1 & a & l2 & Heq & H1 & H2 & Hset).
  exists l1, a, l2. repeat split; try assumption.
  rewrite (selectRandomEnemy_nobody w b shuffled r0 r1 Hnone Hready Hshuffle Hq).
  rewrite Hset.
  unfold selectTraitor. cbn [setNewEnemy enemy].
  rewrite enemySanityCheck_cases. reflexivity.
Qed.

(** Between an ally and unclaimed land nobody qualifies: [nation]
    retaliates against [raider]. *)
Lemma selectRandomEnemy_retaliates_when_none_qualifies_witness :
  exists l1 a l2,
    [Attack.mk dense 10; Attack.mk raider 25] = l1 ++ a :: l2
    /\ Forall (fun x => Attack.troops x < Attack.troops a) l1
    /\ Forall (fun x => Attack.troops x <= Attack.troops a) l2
    /\ selectRandomEnemy
         (worldWith 3 [APlayer ally; TerraNullius]
                    [Attack.mk dense 10; Attack.mk raider 25])
         (fresh [true])
       = if Player.isFriendly nation (Attack.attacker a)
         then (None,
               clearEnemy
                 (setNewEnemy
                    (worldWith 3 [APlayer ally; TerraNullius]
                               [Attack.mk dense 10; Attack.mk raider 25])
                    (Some (Attack.attacker a))
                    (setRandom [true] (fresh [true]))))
         else (Some (Attack.attacker a),
               setNewEnemy
                 (worldWith 3 [APlayer ally; TerraNullius]
                            [Attack.mk dense 10; Attack.mk raider 25])
                 (Some (Attack.attacker a))
                 (setRandom [true] (fresh [true]))).
Proof.
  apply (selectRandomEnemy_retaliates_when_none_qualifies
           (list bool) scripted
           (worldWith 3 [APlayer ally; TerraNullius]
                      [Attack.mk dense 10; Attack.mk raider 25])
           (fresh [true]) [APlayer ally; TerraNullius] [true] [true]).
  - reflexivity.
  - reflexivity.
  - reflexivity.
  - reflexivity.
  - apply Exists_cons_hd. simpl. lra.
Defined.

(** X7. [getNeighborTraitorToAttack] returns null without touching the
    generator when no adjacent player is a traitor; a player it returns is
    an adjacent player marked as traitor, [randElement] returning an
    element of its array. *)
Theorem getNeighborTraitorToAttack_picks_adjacent_traitor :
  forall (R : Type) (PR : PseudoRandom R) (w : World) (b : BotBehavior R),
    (neighborTraitors (neighbors w) = [] ->
     getNeighborTraitorToAttack w b = (None, b))
    /\ (randElementPicks ->
        forall p, fst (getNeighborTraitorToAttack w b) = Some p ->
                  In (APlayer p) (neighbors w)
                  /\ Player.isTraitor p = true).
Proof.
  intros R PR w b. unfold getNeighborTraitorToAttack. split.
  - intros ->. reflexivity.
  - intros Hpick p.
    destruct (neighborTraitors (neighbors w)) as [|t ts] eqn:Ht;
      [discriminate|].
    destruct (randElement (t :: ts) (random b)) as [chosen r] eqn:Hrand.
    cbn [fst]. intros ->.
    apply neighborTraitors_In. rewrite Ht.
    apply (Hpick (t :: ts) (random b)). rewrite Hrand. reflexivity.
Qed.

Lemma getNeighborTraitorToAttack_picks_adjacent_traitor_witness :
  In (APlayer turncoat) (neighbors resentful)
  /\ Player.isTraitor turncoat = true.
Proof.
  apply (proj2 (getNeighborTraitorToAttack_picks_adjacent_traitor
                  (list bool) scripted resentful (fresh []))).
  - intros l r x Hx. destruct l as [|y l]; [discriminate|].
    injection Hx as <-. left. reflexivity.
  - reflexivity.
Defined.

(** X8. When no neighbor of the walk qualifies and no incoming attack
    carries troops, [selectRandomEnemy] (no enemy set, troops sufficient)
    is left with the traitor step: it returns null, the state unchanged but
    for the generator, when no adjacent player is a traitor; and a player
    it returns is an adjacent traitor and not friendly, [randElement]
    returning an element of its array. *)
Theorem selectRandomEnemy_traitor_last :
  forall (R : Type) (PR : PseudoRandom R) (w : World) (b : BotBehavior R)
         (shuffled : list Entity) (r0 r1 : R),
    enemy b = None ->
    hasSufficientTroops w b = true ->
    shuffleArray (neighbors w) (random b) = (shuffled, r0) ->
    qualifying w shuffled r0 = ([], r1) ->
    Forall (fun a => Attack.troops a <= 0) (incomingAttacks w) ->
    (neighborTraitors (neighbors w) = [] ->
     selectRandomEnemy w b = (None, setRandom r1 b))
    /\ (randElementPicks ->
        forall e, fst (selectRandomEnemy w b) = Some e ->
                  In (APlayer e) (neighbors w)
                  /\ Player.isTraitor e = true
                  /\ Player.isFriendly (player w) e = false).
Proof.
  intros R PR w b shuffled r0 r1 Hnone Hready Hshuffle Hq Hquiet.
  assert (Hsel : selectRandomEnemy w b
                 = enemySanityCheck w (selectTraitor w (setRandom r1 b))).
  { rewrite (selectRandomEnemy_nobody w b shuffled r0 r1
                                      Hnone Hready Hshuffle Hq).
    rewrite (checkIncomingAttacks_nothing_positive w _ Hquiet). reflexivity. }
  rewrite Hsel.
  assert (Hn1 : enemy (setRandom r1 b) = None) by exact Hnone.
  split.
  - intros Hnobody. rewrite (selectTraitor_nobody w _ Hnobody).
    rewrite enemySanityCheck_cases, Hn1. reflexivity.
  - intros Hpick e He.
    pose proof (enemySanityCheck_not_friendly w _ e He) as Hfoe.
    apply enemySanityCheck_returns in He.
    destruct (selectTraitor_sets_traitor w _ e Hpick Hn1 He) as [Hin Htr].
    repeat split; assumption.
Qed.

(** Next to unclaimed land only and with an attack that carries nothing,
    [nation] picks nobody. *)
Lemma selectRandomEnemy_traitor_last_witness :
  selectRandomEnemy (worldWith 3 [TerraNullius] [Attack.mk raider 0])
                    (fresh [true])
  = (None, setRandom [true] (fresh [true])).
Proof.
  apply (proj1 (selectRandomEnemy_traitor_last
                  (list bool) scripted
                  (worldWith 3 [TerraNullius] [Attack.mk raider 0])
                  (fresh [true]) [TerraNullius] [true] [true]
                  eq_refl eq_refl eq_refl eq_refl
                  ltac:(repeat constructor; simpl; lra))).
  reflexivity.
Defined.

(** X9. [sendAttack] never refuses as friendly the enemy a selection
    method has just returned: called on the state the selection left, it is
    decided by the troops alone, with the reserve ratio the controller had
    before the selection: nothing is added when the player's troops less
    the reserve floor are below 1, and else exactly one attack on that
    enemy carrying them. *)
Theorem selected_enemy_is_never_refused_as_friendly :
  forall (R : Type) (PR : PseudoRandom R) (w : World) (b : BotBehavior R)
         (e : Player.t) (queue : list Execution),
    let troops :=
      Double.sub (Double.ofQ (Player.troops (player w)))
                 (reserveFloor w b (APlayer e)) in
    (fst (selectEnemy w b) = Some e ->
     sendAttack w (snd (selectEnemy w b)) (APlayer e) queue
     = if Double.ltb troops Double.one then queue
       else queue ++ [AttackExecution troops (player w) (Some (Player.id e))])
    /\ (fst (selectRandomEnemy w b) = Some e ->
        sendAttack w (snd (selectRandomEnemy w b)) (APlayer e) queue
        = if Double.ltb troops Double.one then queue
          else queue ++ [AttackExecution troops (player w)
                                         (Some (Player.id e))]).
Proof.
  intros R PR w b e queue troops. split; intros Hres.
  - rewrite (sendAttack_reads_ratios
               w b _ _ _ (proj1 (proj2 (selectEnemy_keeps w b)))).
    apply sendAttack_at_foe. apply (selectEnemy_not_friendly w b e Hres).
  - rewrite (sendAttack_reads_ratios
               w b _ _ _ (proj2 (selectRandomEnemy_keeps w b))).
    apply sendAttack_at_foe. apply (selectRandomEnemy_not_friendly w b e Hres).
Qed.

(** [nation] has 80 troops of 100 and keeps 50: the bot it picks is
    attacked with 30 troops. *)
Lemma selected_enemy_is_never_refused_as_friendly_witness :
  sendAttack (worldWith 0 [APlayer dense; APlayer sparse] [])
             (snd (selectEnemy (worldWith 0 [APlayer dense; APlayer sparse] [])
                               (keen [])))
             (APlayer sparse) []
  = [AttackExecution (Double.ofQ 30) nation (Some "sparse"%string)].
Proof.
  rewrite (proj1 (selected_enemy_is_never_refused_as_friendly
                    (list bool) scripted
                    (worldWith 0 [APlayer dense; APlayer sparse] [])
                    (keen []) sparse [])).
  - reflexivity.
  - reflexivity.
Defined.

(** ** Distances between players *)

Lemma leb_trans (x y z : Num.t) :
  Num.leb x y = true -> Num.leb y z = true -> Num.leb x z = true.
Proof.
  destruct x, y, z; intros Hxy Hyz; num_order.
Qed.

Lemma leb_ltb_trans (x y z : Num.t) :
  Num.leb x y = true -> Num.ltb y z = true -> Num.leb x z = true.
Proof.
  destruct x, y, z; intros Hxy Hyz; num_order.
Qed.

Lemma not_ltb_leb (x y : Num.t) :
  x <> Num.NaN -> y <> Num.NaN -> Num.ltb x y = false -> Num.leb y x = true.
Proof.
  destruct x, y; intros Hx Hy Hxy; try congruence; num_order.
Qed.

Lemma leb_refl (x : Num.t) : x <> Num.NaN -> Num.leb x x = true.
Proof.
  destruct x; intros Hx; try congruence; num_order.
Qed.

Lemma minDistanceInner_spec (dist : TileRef -> Q) (tilesB : list TileRef) :
  forall minDist : Num.t,
    minDist <> Num.NaN ->
    minDistanceInner dist tilesB minDist <> Num.NaN
    /\ Num.leb (minDistanceInner dist tilesB minDist) minDist = true
    /\ (forall tileB, In tileB tilesB ->
          Num.leb (minDistanceInner dist tilesB minDist)
                  (Num.Finite (dist tileB)) = true)
    /\ (minDistanceInner dist tilesB minDist = minDist
        \/ exists tileB,
            In tileB tilesB
            /\ minDistanceInner dist tilesB minDist = Num.Finite (dist tileB)).
Proof.
  induction tilesB as [|tileB rest IH]; intros minDist Hm.
  - cbn [minDistanceInner]. repeat split.
    + exact Hm.
    + apply leb_refl. exact Hm.
    + intros t [].
    + left. reflexivity.
  - cbn [minDistanceInner].
    destruct (Num.ltb (Num.Finite (dist tileB)) minDist) eqn:Hcmp.
    + destruct (IH (Num.Finite (dist tileB))) as (Hn & Hle & Hall & Hwho);
        [discriminate|].
      repeat split.
      * exact Hn.
      * apply (leb_ltb_trans _ _ _ Hle Hcmp).
      * intros t [<-|Hin]; [exact Hle|apply Hall; exact Hin].
      * right. destruct Hwho as [Heq|(t & Hin & Heq)].
        -- exists tileB. split; [left; reflexivity|exact Heq].
        -- exists t. split; [right; exact Hin|exact Heq].
    + destruct (IH minDist Hm) as (Hn & Hle & Hall & Hwho).
      repeat split.
      * exact Hn.
      * exact Hle.
      * intros t [<-|Hin]; [|apply Hall; exact Hin].
        apply (leb_trans _ _ _ Hle).
        apply not_ltb_leb; [discriminate|exact Hm|exact Hcmp].
      * destruct Hwho as [Heq|(t & Hin & Heq)]; [left; exact Heq|].
        right. exists t. split; [right; exact Hin|exact Heq].
Qed.

Lemma minDistanceOuter_spec (d : Affairs) (tilesB : list TileRef)
      (tilesA : list TileRef) :
  forall minDist : Num.t,
    minDist <> Num.NaN ->
    minDistanceOuter d tilesA tilesB minDist <> Num.NaN
    /\ Num.leb (minDistanceOuter d tilesA tilesB minDist) minDist = true
    /\ (forall tileA tileB, In tileA tilesA -> In tileB tilesB ->
          Num.leb (minDistanceOuter d tilesA tilesB minDist)
                  (Num.Finite (manhattanDist d tileA tileB)) = true)
    /\ (minDistanceOuter d tilesA tilesB minDist = minDist
        \/ exists tileA tileB,
            In tileA tilesA /\ In tileB tilesB
            /\ minDistanceOuter d tilesA tilesB minDist
               = Num.Finite (manhattanDist d tileA tileB)).
Proof.
  induction tilesA as [|tileA rest IH]; intros minDist Hm.
  - cbn [minDistanceOuter]. repeat split.
    + exact Hm.
    + apply leb_refl. exact Hm.
    + intros a b [].
    + left. reflexivity.
  - cbn [minDistanceOuter].
    destruct (minDistanceInner_spec (manhattanDist d tileA) tilesB minDist Hm)
      as (Hn1 & Hle1 & Hall1 & Hwho1).
    destruct (IH _ Hn1) as (Hn & Hle & Hall & Hwho).
    repeat split.
    + exact Hn.
    + apply (leb_trans _ _ _ Hle Hle1).
    + intros a b [<-|Hin] Hb.
      * apply (leb_trans _ _ _ Hle). apply Hall1. exact Hb.
      * apply Hall; assumption.
    + destruct Hwho as [Heq|(a & b & Ha & Hb & Heq)].
      * destruct Hwho1 as [Heq1|(b & Hb & Heq1)].
        -- left. congruence.
        -- right. exists tileA, b.
           split; [left; reflexivity|]. split; [exact Hb|congruence].
      * right. exists a, b. split; [right; exact Ha|]. split; assumption.
Qed.

Lemma minDistanceOuter_no_tilesB (d : Affairs) (tilesA : list TileRef)
      (minDist : Num.t) :
  minDistanceOuter d tilesA [] minDist = minDist.
Proof.
  induction tilesA as [|tileA rest IH]; [reflexivity|exact IH].
Qed.

(** X10. [minDistanceBetweenPlayers] returns [Infinity] when one of the two
    players owns no tile; otherwise it returns the distance between a tile
    of the first and a tile of the second player, and no pair of their
    tiles is closer. *)
Theorem minDistanceBetweenPlayers_is_least :
  forall (d : Affairs) (playerA playerB : Player.t),
    (tiles d playerA = [] \/ tiles d playerB = [] ->
     minDistanceBetweenPlayers d playerA playerB = Num.PosInfinity)
    /\ (tiles d playerA <> [] -> tiles d playerB <> [] ->
        exists tileA tileB,
          In tileA (tiles d playerA) /\ In tileB (tiles d playerB)
          /\ minDistanceBetweenPlayers d playerA playerB
             = Num.Finite (manhattanDist d tileA tileB)
          /\ forall a b, In a (tiles d playerA) -> In b (tiles d playerB) ->
                         manhattanDist d tileA tileB <= manhattanDist d a b).
Proof.
  intros d playerA playerB. unfold minDistanceBetweenPlayers. split.
  - intros [-> | ->]; [reflexivity|apply minDistanceOuter_no_tilesB].
  - intros HA HB.
    destruct (minDistanceOuter_spec d (tiles d playerB) (tiles d playerA)
                                    Num.PosInfinity)
      as (_ & _ & Hall & Hwho); [discriminate|].
    destruct Hwho as [Heq|(tileA & tileB & Ha & Hb & Heq)].
    + exfalso.
      destruct (tiles d playerA) as [|a restA]; [congruence|].
      destruct (tiles d playerB) as [|b restB]; [congruence|].
      specialize (Hall a b (or_introl eq_refl) (or_introl eq_refl)).
      rewrite Heq in Hall. discriminate.
    + exists tileA, tileB. repeat split; try assumption.
      intros a b Hina Hinb. specialize (Hall a b Hina Hinb).
      rewrite Heq in Hall. apply Qle_bool_iff in Hall. exact Hall.
Qed.

(** X11. With a symmetric distance between tiles, the two orders of the
    players give the same minimum: each result is at most the other. *)
Theorem minDistanceBetweenPlayers_symmetric :
  forall (d : Affairs) (playerA playerB : Player.t),
    (forall a b, manhattanDist d a b == manhattanDist d b a) ->
    Num.leb (minDistanceBetweenPlayers d playerA playerB)
            (minDistanceBetweenPlayers d playerB playerA) = true.
Proof.
  intros d playerA playerB Hsym. unfold minDistanceBetweenPlayers.
  destruct (minDistanceOuter_spec d (tiles d playerB) (tiles d playerA)
                                  Num.PosInfinity)
    as (Hn & _ & Hall & _); [discriminate|].
  destruct (minDistanceOuter_spec d (tiles d playerA) (tiles d playerB)
                                  Num.PosInfinity)
    as (_ & _ & _ & Hwho); [discriminate|].
  destruct Hwho as [->|(b & a & Hb & Ha & ->)].
  - destruct (minDistanceOuter d (tiles d playerA) (tiles d playerB)
                               Num.PosInfinity);
      try reflexivity; congruence.
  - specialize (Hall a b Ha Hb).
    destruct (minDistanceOuter d (tiles d playerA) (tiles d playerB)
                               Num.PosInfinity);
      try discriminate; try reflexivity.
    cbn [Num.leb] in *. apply Qle_bool_iff in Hall. apply Qle_bool_iff.
    rewrite (Hsym b a). exact Hall.
Qed.

(** [warlord] owns tiles 10, 11 and 12 and [foe] tiles 30 and 17: they
    are 5 apart. *)
Lemma minDistanceBetweenPlayers_is_least_witness :
  exists tileA tileB,
    In tileA (tiles (affairsOf warlord) warlord)
    /\ In tileB (tiles (affairsOf warlord) foe)
    /\ minDistanceBetweenPlayers (affairsOf warlord) warlord foe
       = Num.Finite (manhattanDist (affairsOf warlord) tileA tileB)
    /\ forall a b,
        In a (tiles (affairsOf warlord) warlord) ->
        In b (tiles (affairsOf warlord) foe) ->
        manhattanDist (affairsOf warlord) tileA tileB
        <= manhattanDist (affairsOf warlord) a b.
Proof.
  apply (proj2 (minDistanceBetweenPlayers_is_least
                  (affairsOf warlord) warlord foe));
    discriminate.
Defined.

Lemma minDistanceBetweenPlayers_symmetric_witness :
  Num.leb (minDistanceBetweenPlayers (affairsOf warlord) warlord foe)
          (minDistanceBetweenPlayers (affairsOf warlord) foe warlord) = true.
Proof.
  apply (minDistanceBetweenPlayers_symmetric (affairsOf warlord) warlord foe).
  intros a b. simpl. apply inject_Z_injective. lia.
Defined.

(** ** Alliances *)

Lemma shouldAcceptAllianceRequest_true (player : Player.t)
      (request : AllianceRequest) :
  shouldAcceptAllianceRequest player request = true ->
  (Relation_value Neutral
   <= Relation_value (Player.relation player (requestor request)))%Z
  /\ Player.isTraitor (requestor request) = false.
Proof.
  unfold shouldAcceptAllianceRequest.
  destruct (Z.ltb_spec
              (Relation_value (Player.relation player (requestor request)))
              (Relation_value Neutral)); [discriminate|].
  destruct (Player.isTraitor (requestor request)); [discriminate|].
  intros _. split; [assumption|reflexivity].
Qed.

Lemma handleAllianceRequestsLoop_accepts (player : Player.t)
      (requests : list AllianceRequest) (req : AllianceRequest) :
  In (Accept req) (handleAllianceRequestsLoop player requests)
  <-> In req requests /\ shouldAcceptAllianceRequest player req = true.
Proof.
  induction requests as [|r rest IH]; cbn [handleAllianceRequestsLoop].
  - split; [intros []|intros [[] _]].
  - split.
    + intros [Hhd|Htl].
      * destruct (shouldAcceptAllianceRequest player r) eqn:Hr;
          [|discriminate].
        injection Hhd as <-. split; [left; reflexivity|exact Hr].
      * apply IH in Htl. destruct Htl as [Hin Hok].
        split; [right; exact Hin|exact Hok].
    + intros [[<-|Hin] Hok].
      * left. rewrite Hok. reflexivity.
      * right. apply IH. split; assumption.
Qed.

Lemma handleAllianceRequestsLoop_rejects (player : Player.t)
      (requests : list AllianceRequest) (req : AllianceRequest) :
  In (Reject req) (handleAllianceRequestsLoop player requests)
  <-> In req requests /\ shouldAcceptAllianceRequest player req = false.
Proof.
  induction requests as [|r rest IH]; cbn [handleAllianceRequestsLoop].
  - split; [intros []|intros [[] _]].
  - split.
    + intros [Hhd|Htl].
      * destruct (shouldAcceptAllianceRequest player r) eqn:Hr;
          [discriminate|].
        injection Hhd as <-. split; [left; reflexivity|exact Hr].
      * apply IH in Htl. destruct Htl as [Hin Hok].
        split; [right; exact Hin|exact Hok].
    + intros [[<-|Hin] Hok].
      * left. rewrite Hok. reflexivity.
      * right. apply IH. split; assumption.
Qed.

Lemma handleAllianceRequestsLoop_length (player : Player.t)
      (requests : list AllianceRequest) :
  List.length (handleAllianceRequestsLoop player requests)
  = List.length requests.
Proof.
  induction requests as [|r rest IH]; [reflexivity|].
  cbn [handleAllianceRequestsLoop List.length]. rewrite IH. reflexivity.
Qed.

(** X12. [handleAllianceRequests] answers every incoming request once:
    it accepts exactly the requests [shouldAcceptAllianceRequest] approves
    and rejects exactly the others, so it never accepts a traitor or a
    requestor the player's relation to which is below Neutral. *)
Theorem handleAllianceRequests_answers_each_request :
  forall (w : World) (d : Affairs),
    List.length (handleAllianceRequests w d)
    = List.length (incomingAllianceRequests d)
    /\ (forall req,
           In (Accept req) (handleAllianceRequests w d)
           <-> In req (incomingAllianceRequests d)
               /\ shouldAcceptAllianceRequest (player w) req = true)
    /\ (forall req,
           In (Reject req) (handleAllianceRequests w d)
           <-> In req (incomingAllianceRequests d)
               /\ shouldAcceptAllianceRequest (player w) req = false)
    /\ (forall req,
           In (Accept req) (handleAllianceRequests w d) ->
           (Relation_value Neutral
            <= Relation_value (Player.relation (player w) (requestor req)))%Z
           /\ Player.isTraitor (requestor req) = false).
Proof.
  intros w d. unfold handleAllianceRequests.
  split; [apply handleAllianceRequestsLoop_length|].
  split; [intros req; apply handleAllianceRequestsLoop_accepts|].
  split; [intros req; apply handleAllianceRequestsLoop_rejects|].
  intros req Hin. apply handleAllianceRequestsLoop_accepts in Hin.
  apply shouldAcceptAllianceRequest_true. apply Hin.
Qed.

(** Of the requests of [foe], [giant] and [turncoat], [nation] accepts
    that of [giant]. *)
Lemma handleAllianceRequests_answers_each_request_witness :
  In (Accept (mkAllianceRequest giant))
     (handleAllianceRequests (worldWith 0 [] []) (affairsOf nation))
  /\ In (Reject (mkAllianceRequest turncoat))
        (handleAllianceRequests (worldWith 0 [] []) (affairsOf nation)).
Proof.
  pose proof (handleAllianceRequests_answers_each_request
                (worldWith 0 [] []) (affairsOf nation))
    as (_ & Hacc & Hrej & _).
  split.
  - apply Hacc. split; [right; left; reflexivity|reflexivity].
  - apply Hrej. split; [right; right; left; reflexivity|reflexivity].
Defined.

Section Extensions.

Context {R : Type} `{PseudoRandom R}.

Lemma extensionLoop_sound (w : World) (pending : list Alliance.t) :
  forall (r : R) (c : Call),
    In c (fst (extensionLoop w pending r)) ->
    exists alliance,
      In alliance pending
      /\ Alliance.onlyOneAgreedToExtend alliance = true
      /\ c = AllianceExtensionExecution
               (player w) (Player.id (Alliance.other alliance)).
Proof.
  induction pending as [|alliance rest IH]; intros r c Hin.
  - destruct Hin.
  - cbn [extensionLoop] in Hin.
    assert (Hrest : forall r', In c (fst (extensionLoop w rest r')) ->
                    exists a, In a (alliance :: rest)
                              /\ Alliance.onlyOneAgreedToExtend a = true
                              /\ c = AllianceExtensionExecution
                                       (player w) (Player.id (Alliance.other a))).
    { intros r' Hc. destruct (IH r' c Hc) as (a & Ha & Hrest).
      exists a. split; [right; exact Ha|exact Hrest]. }
    destruct (Alliance.onlyOneAgreedToExtend alliance) eqn:Hflag;
      cbn [negb] in Hin; [|eauto].
    assert (Hhere : forall r',
               In c (fst (let (calls, r2) := extensionLoop w rest r' in
                          (AllianceExtensionExecution
                             (player w) (Player.id (Alliance.other alliance))
                             :: calls, r2))) ->
               exists a, In a (alliance :: rest)
                         /\ Alliance.onlyOneAgreedToExtend a = true
                         /\ c = AllianceExtensionExecution
                                  (player w) (Player.id (Alliance.other a))).
    { intros r' Hc.
      destruct (extensionLoop w rest r') as [calls r2] eqn:Hloop.
      destruct Hc as [<-|Hc].
      - exists alliance. split; [left; reflexivity|]. split; [exact Hflag|reflexivity].
      - apply (Hrest r'). rewrite Hloop. exact Hc. }
    destruct (PlayerType_eqb (Player.type (player w)) FakeHuman
              && Relation_eqb (Player.relation (player w)
                                               (Alliance.other alliance))
                              Neutral)%bool.
    + destruct (chance (3 # 2) r) as [agree r1].
      destruct agree; cbn [negb] in Hin; eauto.
    + eauto.
Qed.

Lemma extensionLoop_complete (w : World) (pending : list Alliance.t) :
  forall (r : R) (alliance : Alliance.t),
    In alliance pending ->
    Alliance.onlyOneAgreedToExtend alliance = true ->
    Player.type (player w) <> FakeHuman
    \/ Player.relation (player w) (Alliance.other alliance) <> Neutral ->
    In (AllianceExtensionExecution
          (player w) (Player.id (Alliance.other alliance)))
       (fst (extensionLoop w pending r)).
Proof.
  induction pending as [|a rest IH]; intros r alliance Hin Hflag Hwhy.
  - destruct Hin.
  - cbn [extensionLoop].
    destruct Hin as [->|Hin].
    + rewrite Hflag. cbn [negb].
      assert (Hcond : (PlayerType_eqb (Player.type (player w)) FakeHuman
                       && Relation_eqb (Player.relation
                                          (player w) (Alliance.other alliance))
                                       Neutral)%bool = false).
      { destruct Hwhy as [Hty|Hrel].
        - destruct (Player.type (player w)); try reflexivity. congruence.
        - destruct (Player.relation (player w) (Alliance.other alliance));
            try (apply andb_false_r); congruence. }
      rewrite Hcond.
      destruct (extensionLoop w rest r) as [calls r2]. left. reflexivity.
    + destruct (negb (Alliance.onlyOneAgreedToExtend a)); [eauto|].
      destruct (PlayerType_eqb (Player.type (player w)) FakeHuman
                && Relation_eqb (Player.relation (player w) (Alliance.other a))
                                Neutral)%bool.
      * destruct (chance (3 # 2) r) as [agree r1].
        destruct agree; cbn [negb]; [|eauto].
        specialize (IH r1 alliance Hin Hflag Hwhy).
        destruct (extensionLoop w rest r1) as [calls r2]. right. exact IH.
      * specialize (IH r alliance Hin Hflag Hwhy).
        destruct (extensionLoop w rest r) as [calls r2]. right. exact IH.
Qed.

Lemma extensionLoop_without_trials (w : World) (pending : list Alliance.t) (r : R) :
  Player.type (player w) <> FakeHuman ->
  extensionLoop w pending r
  = (map (fun alliance =>
            AllianceExtensionExecution
              (player w) (Player.id (Alliance.other alliance)))
         (filter Alliance.onlyOneAgreedToExtend pending),
     r).
Proof.
  intros Hty.
  assert (Hcond : PlayerType_eqb (Player.type (player w)) FakeHuman = false)
    by (destruct (Player.type (player w)); try reflexivity; congruence).
  induction pending as [|alliance rest IH]; [reflexivity|].
  cbn [extensionLoop filter]. rewrite Hcond. cbn [andb].
  destruct (Alliance.onlyOneAgreedToExtend alliance); cbn [negb].
  - rewrite IH. reflexivity.
  - exact IH.
Qed.

End Extensions.

(** X13. A controller of a player that is not a FakeHuman agrees to every
    extension that only the other side has agreed to: one execution per
    such alliance, in order, none for the other alliances, and the state,
    generator included, is unchanged. *)
Theorem handleAllianceExtensionRequests_of_a_bot :
  forall (R : Type) (PR : PseudoRandom R) (w : World) (d : Affairs)
         (b : BotBehavior R),
    Player.type (player w) <> FakeHuman ->
    handleAllianceExtensionRequests w d b
    = (map (fun alliance =>
              AllianceExtensionExecution
                (player w) (Player.id (Alliance.other alliance)))
           (filter Alliance.onlyOneAgreedToExtend (alliances d)),
       b).
Proof.
  intros R PR w d b Hty. unfold handleAllianceExtensionRequests.
  rewrite (extensionLoop_without_trials w (alliances d) (random b) Hty).
  rewrite setRandom_same. reflexivity.
Qed.

Lemma handleAllianceExtensionRequests_of_a_bot_witness :
  handleAllianceExtensionRequests (worldOf recruit 0 [] []) (affairsOf recruit)
                                  (fresh [false])
  = ([AllianceExtensionExecution recruit "comrade"%string;
      AllianceExtensionExecution recruit "mimic"%string],
     fresh [false]).
Proof.
  apply (handleAllianceExtensionRequests_of_a_bot
           (list bool) scripted (worldOf recruit 0 [] []) (affairsOf recruit)
           (fresh [false])).
  discriminate.
Defined.

(** X14. Whatever the player's type, [handleAllianceExtensionRequests]
    adds executions only for alliances that only the other side has agreed
    to extend, from the controlled player to the other party; and it does
    add one for each such alliance unless the player is a FakeHuman whose
    relation to the other party is exactly Neutral, the one case left to
    chance. *)
Theorem handleAllianceExtensionRequests_extends_flagged :
  forall (R : Type) (PR : PseudoRandom R) (w : World) (d : Affairs)
         (b : BotBehavior R),
    (forall c,
        In c (fst (handleAllianceExtensionRequests w d b)) ->
        exists alliance,
          In alliance (alliances d)
          /\ Alliance.onlyOneAgreedToExtend alliance = true
          /\ c = AllianceExtensionExecution
                   (player w) (Player.id (Alliance.other alliance)))
    /\ (forall alliance,
           In alliance (alliances d) ->
           Alliance.onlyOneAgreedToExtend alliance = true ->
           Player.type (player w) <> FakeHuman
           \/ Player.relation (player w) (Alliance.other alliance) <> Neutral ->
           In (AllianceExtensionExecution
                 (player w) (Player.id (Alliance.other alliance)))
              (fst (handleAllianceExtensionRequests w d b))).
Proof.
  intros R PR w d b. unfold handleAllianceExtensionRequests. split.
  - intros c Hin. apply (extensionLoop_sound w (alliances d) (random b)).
    destruct (extensionLoop w (alliances d) (random b)). exact Hin.
  - intros alliance Hin Hflag Hwhy.
    pose proof (extensionLoop_complete w (alliances d) (random b)
                                       alliance Hin Hflag Hwhy) as Hc.
    destruct (extensionLoop w (alliances d) (random b)). exact Hc.
Qed.

(** [warlord], a FakeHuman friendly to [comrade], extends with it even
    when the trial for the neutral [mimic] fails. *)
Lemma handleAllianceExtensionRequests_extends_flagged_witness :
  In (AllianceExtensionExecution warlord "comrade"%string)
     (fst (handleAllianceExtensionRequests
             (worldOf warlord 0 [] []) (affairsOf warlord) (fresh [false]))).
Proof.
  apply (proj2 (handleAllianceExtensionRequests_extends_flagged
                  (list bool) scripted (worldOf warlord 0 [] [])
                  (affairsOf warlord) (fresh [false]))
               (Alliance.mk true comrade)).
  - right. left. reflexivity.
  - reflexivity.
  - right. discriminate.
Defined.

(** ** Assisting allies *)

Section Assistance.

Context {R : Type} `{PseudoRandom R}.

Variable assistAcceptEmoji : Z.

Lemma assistTarget_spec (w : World) (d : Affairs) (ts : list Player.t) :
  (assistTarget w d ts = None
   /\ Forall (fun t => Player.id t = Player.id (player w)
                       \/ isAlliedWith d t = true) ts)
  \/ (exists t1 target t2,
         ts = t1 ++ target :: t2
         /\ Forall (fun t => Player.id t = Player.id (player w)
                             \/ isAlliedWith d t = true) t1
         /\ Player.id target <> Player.id (player w)
         /\ isAlliedWith d target = false
         /\ assistTarget w d ts = Some target).
Proof.
  induction ts as [|t rest IH].
  - left. split; [reflexivity|constructor].
  - cbn [assistTarget].
    destruct (String.eqb_spec (Player.id t) (Player.id (player w))) as [Hme|Hme].
    + destruct IH as [[Hnone Hall]|(t1 & target & t2 & -> & H1 & Hn & Ha & Hs)].
      * left. split; [exact Hnone|]. constructor; [left; exact Hme|exact Hall].
      * right. exists (t :: t1), target, t2. repeat split; try assumption.
        constructor; [left; exact Hme|exact H1].
    + destruct (isAlliedWith d t) eqn:Hallied.
      * destruct IH as [[Hnone Hall]|(t1 & target & t2 & -> & H1 & Hn & Ha & Hs)].
        -- left. split; [exact Hnone|].
           constructor; [right; exact Hallied|exact Hall].
        -- right. exists (t :: t1), target, t2. repeat split; try assumption.
           constructor; [right; exact Hallied|exact H1].
      * right. exists [], t, rest. repeat split; try assumption. constructor.
Qed.

(** Either no ally can be assisted and nothing happens, or the first ally
    that can be is assisted against the first of its targets that is
    neither the player nor an ally of the player. *)
Lemma assistLoop_spec (w : World) (d : Affairs) (pending : list Player.t)
      (b : BotBehavior R) :
  (assistLoop assistAcceptEmoji w d pending b = ([], b)
   /\ Forall (fun ally =>
                targets d ally = []
                \/ (Relation_value (Player.relation (player w) ally)
                    < Relation_value Friendly)%Z
                \/ Forall (fun t => Player.id t = Player.id (player w)
                                    \/ isAlliedWith d t = true)
                          (targets d ally))
             pending)
  \/ (exists l1 ally l2 t1 target t2,
         pending = l1 ++ ally :: l2
         /\ targets d ally = t1 ++ target :: t2
         /\ Forall (fun a =>
                      targets d a = []
                      \/ (Relation_value (Player.relation (player w) a)
                          < Relation_value Friendly)%Z
                      \/ Forall (fun t => Player.id t = Player.id (player w)
                                          \/ isAlliedWith d t = true)
                                (targets d a))
                   l1
         /\ Forall (fun t => Player.id t = Player.id (player w)
                             \/ isAlliedWith d t = true) t1
         /\ (Relation_value Friendly
             <= Relation_value (Player.relation (player w) ally))%Z
         /\ Player.id target <> Player.id (player w)
         /\ isAlliedWith d target = false
         /\ assistLoop assistAcceptEmoji w d pending b
            = (UpdateRelation ally (-20) :: emoji w ally assistAcceptEmoji,
               setNewEnemy w (Some target) b)).
Proof.
  induction pending as [|ally rest IH].
  - left. split; [reflexivity|constructor].
  - cbn [assistLoop].
    assert (Hskip :
              targets d ally = []
              \/ (Relation_value (Player.relation (player w) ally)
                  < Relation_value Friendly)%Z
              \/ Forall (fun t => Player.id t = Player.id (player w)
                                  \/ isAlliedWith d t = true)
                        (targets d ally) ->
              (assistLoop assistAcceptEmoji w d rest b = ([], b)
               /\ Forall (fun ally =>
                            targets d ally = []
                            \/ (Relation_value (Player.relation (player w) ally)
                                < Relation_value Friendly)%Z
                            \/ Forall (fun t =>
                                         Player.id t = Player.id (player w)
                                         \/ isAlliedWith d t = true)
                                      (targets d ally))
                         (ally :: rest))
              \/ (exists l1 ally' l2 t1 target t2,
                     ally :: rest = l1 ++ ally' :: l2
                     /\ targets d ally' = t1 ++ target :: t2
                     /\ Forall (fun a =>
                                  targets d a = []
                                  \/ (Relation_value
                                        (Player.relation (player w) a)
                                      < Relation_value Friendly)%Z
                                  \/ Forall (fun t =>
                                               Player.id t = Player.id (player w)
                                               \/ isAlliedWith d t = true)
                                            (targets d a))
                               l1
                     /\ Forall (fun t => Player.id t = Player.id (player w)
                                         \/ isAlliedWith d t = true) t1
                     /\ (Relation_value Friendly
                         <= Relation_value (Player.relation (player w) ally'))%Z
                     /\ Player.id target <> Player.id (player w)
                     /\ isAlliedWith d target = false
                     /\ assistLoop assistAcceptEmoji w d rest b
                        = (UpdateRelation ally' (-20)
                             :: emoji w ally' assistAcceptEmoji,
                           setNewEnemy w (Some target) b))).
    { intros Hwhy.
      destruct IH as [[Hnone Hall]
                     |(l1 & a & l2 & t1 & tg & t2 & -> & Hts & H1 & Ht1 & Hrel
                       & Hn & Ha & Hres)].
      - left. split; [exact Hnone|constructor; assumption].
      - right. exists (ally :: l1), a, l2, t1, tg, t2.
        repeat split; try assumption. constructor; assumption. }
    destruct (targets d ally) as [|t ts] eqn:Hts.
    + apply Hskip. left. reflexivity.
    + destruct (Z.ltb_spec (Relation_value (Player.relation (player w) ally))
                           (Relation_value Friendly)) as [Hrel|Hrel].
      * apply Hskip. right. left. exact Hrel.
      * destruct (assistTarget_spec w d (t :: ts))
          as [[Hnone Hall]|(t1 & target & t2 & Heq & H1 & Hn & Ha & Hsome)].
        -- rewrite Hnone. apply Hskip. right. right. exact Hall.
        -- rewrite Hsome. right.
           exists [], ally, rest, t1, target, t2.
           rewrite Hts. repeat split; try assumption. constructor.
Qed.

End Assistance.

(** X15. [assistAllies] commits at most once.  Either no ally can be
    assisted (each has no target, or a relation below Friendly, or only
    targets that are the player itself or its allies) and nothing happens;
    or the first ally that can be is assisted against the first of its
    targets that is neither the player nor an ally of the player: the
    relation to that ally is lowered by 20, the target becomes the enemy at
    the current tick, whatever enemy was set before, and the emoji goes out
    if the ally is Human. *)
Theorem assistAllies_first_ally_first_target :
  forall (R : Type) (PR : PseudoRandom R) (thumbsUp : Z) (w : World)
         (d : Affairs) (b : BotBehavior R),
    (assistAllies thumbsUp w d b = ([], b)
     /\ Forall (fun ally =>
                  targets d ally = []
                  \/ (Relation_value (Player.relation (player w) ally)
                      < Relation_value Friendly)%Z
                  \/ Forall (fun t => Player.id t = Player.id (player w)
                                      \/ isAlliedWith d t = true)
                            (targets d ally))
               (allies d))
    \/ (exists l1 ally l2 t1 target t2,
           allies d = l1 ++ ally :: l2
           /\ targets d ally = t1 ++ target :: t2
           /\ Forall (fun a =>
                        targets d a = []
                        \/ (Relation_value (Player.relation (player w) a)
                            < Relation_value Friendly)%Z
                        \/ Forall (fun t => Player.id t = Player.id (player w)
                                            \/ isAlliedWith d t = true)
                                  (targets d a))
                     l1
           /\ Forall (fun t => Player.id t = Player.id (player w)
                               \/ isAlliedWith d t = true) t1
           /\ (Relation_value Friendly
               <= Relation_value (Player.relation (player w) ally))%Z
           /\ Player.id target <> Player.id (player w)
           /\ isAlliedWith d target = false
           /\ assistAllies thumbsUp w d b
              = (UpdateRelation ally (-20) :: emoji w ally thumbsUp,
                 setNewEnemy w (Some target) b)).
Proof.
  intros R PR thumbsUp w d b. unfold assistAllies. apply assistLoop_spec.
Qed.

(** X16. Whatever [assistAllies] leaves as enemy was the enemy before or is
    a target of an ally of the player that is neither the player itself nor
    allied with it; and every emoji it sends goes to a Human ally. *)
Theorem assistAllies_never_turns_on_allies :
  forall (R : Type) (PR : PseudoRandom R) (thumbsUp : Z) (w : World)
         (d : Affairs) (b : BotBehavior R),
    (enemy (snd (assistAllies thumbsUp w d b)) = enemy b
     \/ exists ally target,
         In ally (allies d) /\ In target (targets d ally)
         /\ enemy (snd (assistAllies thumbsUp w d b)) = Some target
         /\ Player.id target <> Player.id (player w)
         /\ isAlliedWith d target = false)
    /\ (forall from recipientID code,
           In (EmojiExecution from recipientID code)
              (fst (assistAllies thumbsUp w d b)) ->
           exists ally,
             In ally (allies d) /\ Player.type ally = Human
             /\ recipientID = Player.id ally /\ code = thumbsUp
             /\ from = player w).
Proof.
  intros R PR thumbsUp w d b. unfold assistAllies.
  destruct (assistLoop_spec thumbsUp w d (allies d) b)
    as [[Hnone _]
       |(l1 & ally & l2 & t1 & target & t2 & Hal & Hts & _ & _ & _ & Hn & Ha
         & Hres)].
  - rewrite Hnone. split; [left; reflexivity|]. intros f r c [].
  - rewrite Hres. cbn [fst snd]. split.
    + right. exists ally, target.
      split; [rewrite Hal; apply in_elt|].
      split; [rewrite Hts; apply in_elt|].
      repeat split; assumption.
    + intros from recipientID code [Hhd|Hin]; [discriminate|].
      unfold emoji in Hin.
      destruct (Player.type ally) eqn:Hty; try destruct Hin as [Heq|[]];
        try destruct Hin.
      injection Heq as <- <- <-.
      exists ally. split; [rewrite Hal; apply in_elt|].
      repeat split. exact Hty.
Qed.

(** [comrade], a Human ally [warlord] is friendly to, attacks [warlord],
    [ally], [foe] and [raider]: [warlord] joins against [foe]. *)
Lemma assistAllies_never_turns_on_allies_witness :
  exists who,
    In who (allies (affairsOf warlord))
    /\ Player.type who = Human
    /\ "comrade"%string = Player.id who /\ 7%Z = 7%Z
    /\ warlord = player (worldOf warlord 0 [] []).
Proof.
  apply (proj2 (assistAllies_never_turns_on_allies
                  (list bool) scripted 7%Z (worldOf warlord 0 [] [])
                  (affairsOf warlord) (engaged [] raider))
               warlord "comrade"%string 7%Z).
  right. left. reflexivity.
Defined.

(** ** Donations *)

Lemma donationsTo_nothing (ally : Player.t) (t g : Z) :
  ((0 <? t)%Z || (0 <? g)%Z)%bool = false -> donationsTo t g ally = [].
Proof.
  intros Hno. apply orb_false_iff in Hno. destruct Hno as [Ht Hg].
  unfold donationsTo. rewrite Ht, Hg. reflexivity.
Qed.

Lemma distributeResourcesToAllies_flat_map (w : World) (d : Affairs) :
  distributeResourcesToAllies w d
  = flat_map (donationsTo (Qfloor (Player.troops (player w) * (1 # 4)))
                          (Z.quot (gold d) 4))
             (allies d).
Proof.
  unfold distributeResourcesToAllies.
  destruct (allies d) as [|ally rest] eqn:Hal; [reflexivity|].
  destruct ((0 <? Qfloor (Player.troops (player w) * (1 # 4)))%Z
            || (0 <? Z.quot (gold d) 4)%Z)%bool eqn:Hany; [reflexivity|].
  symmetry. generalize (ally :: rest). intros l.
  induction l as [|a l IH]; [reflexivity|].
  cbn [flat_map]. rewrite IH, (donationsTo_nothing a _ _ Hany). reflexivity.
Qed.

Lemma troopsAsked_app (l1 l2 : list Call) :
  troopsAsked (l1 ++ l2) = (troopsAsked l1 + troopsAsked l2)%Z.
Proof.
  induction l1 as [|c l1 IH]; [reflexivity|].
  destruct c; cbn [troopsAsked app]; rewrite IH; lia.
Qed.

Lemma troopsAsked_donationsTo (ally : Player.t) (t g : Z) :
  troopsAsked (donationsTo t g ally) = Z.max 0 t.
Proof.
  unfold donationsTo.
  destruct (Z.ltb_spec 0 t); destruct (0 <? g)%Z; cbn [troopsAsked app]; lia.
Qed.

Lemma quarter_of_troops_positive (troops : Q) :
  (0 < Qfloor (troops * (1 # 4)))%Z <-> 4 <= troops.
Proof.
  split.
  - intros Hpos.
    pose proof (Qfloor_le (troops * (1 # 4))) as Hfl.
    assert (H1 : 1 <= inject_Z (Qfloor (troops * (1 # 4)))).
    { change 1 with (inject_Z 1). rewrite <- Zle_Qle. lia. }
    lra.
  - intros Hfour.
    pose proof (Qlt_floor (troops * (1 # 4))) as Hfl.
    assert (H1 : inject_Z 1 < inject_Z (Qfloor (troops * (1 # 4)) + 1)).
    { change (inject_Z 1) with 1. lra. }
    rewrite <- Zlt_Qlt in H1. lia.
Qed.

(** X17. [distributeResourcesToAllies] does not split its gift: with
    [t] the floor of a quarter of the player's troops and [g] the quarter
    of its gold, every ally is offered [t] troops if [t > 0] and [g] gold
    if [g > 0], and nothing else is donated; the troops asked for are
    [t] times the number of allies. *)
Theorem distributeResourcesToAllies_full_share_each :
  forall (w : World) (d : Affairs),
    let t := Qfloor (Player.troops (player w) * (1 # 4)) in
    let g := Z.quot (gold d) 4 in
    (forall ally,
        In ally (allies d) ->
        ((0 < t)%Z -> In (DonateTroops ally t) (distributeResourcesToAllies w d))
        /\ ((0 < g)%Z ->
            In (DonateGold ally g) (distributeResourcesToAllies w d)))
    /\ (forall c,
           In c (distributeResourcesToAllies w d) ->
           exists ally,
             In ally (allies d)
             /\ ((c = DonateTroops ally t /\ (0 < t)%Z)
                 \/ (c = DonateGold ally g /\ (0 < g)%Z)))
    /\ troopsAsked (distributeResourcesToAllies w d)
       = (Z.of_nat (List.length (allies d)) * Z.max 0 t)%Z.
Proof.
  intros w d t g. rewrite distributeResourcesToAllies_flat_map.
  fold t. fold g. split; [|split].
  - intros ally Hin. split; intros Hpos; apply in_flat_map; exists ally;
      (split; [exact Hin|]); unfold donationsTo.
    + apply in_or_app. left.
      destruct (Z.ltb_spec 0 t); [left; reflexivity|lia].
    + apply in_or_app. right.
      destruct (Z.ltb_spec 0 g); [left; reflexivity|lia].
  - intros c Hin. apply in_flat_map in Hin. destruct Hin as (ally & Hal & Hc).
    exists ally. split; [exact Hal|].
    unfold donationsTo in Hc. apply in_app_or in Hc.
    destruct Hc as [Hc|Hc].
    + destruct (Z.ltb_spec 0 t); [|destruct Hc].
      destruct Hc as [<-|[]]. left. split; [reflexivity|assumption].
    + destruct (Z.ltb_spec 0 g); [|destruct Hc].
      destruct Hc as [<-|[]]. right. split; [reflexivity|assumption].
  - induction (allies d) as [|ally rest IH]; [reflexivity|].
    cbn [flat_map]. rewrite troopsAsked_app, IH, troopsAsked_donationsTo.
    cbn [List.length]. lia.
Qed.

(** [warlord] has 83 troops and 1003 gold: [comrade] is offered 20 troops
    and 250 gold, as is [ally]. *)
Lemma distributeResourcesToAllies_full_share_each_witness :
  In (DonateTroops comrade 20)
     (distributeResourcesToAllies (worldOf warlord 0 [] []) (affairsOf warlord))
  /\ In (DonateGold comrade 250)
        (distributeResourcesToAllies (worldOf warlord 0 [] [])
                                     (affairsOf warlord)).
Proof.
  pose proof (proj1 (distributeResourcesToAllies_full_share_each
                       (worldOf warlord 0 [] []) (affairsOf warlord))
                    comrade (or_intror (or_introl eq_refl)))
    as [Htroops Hgold].
  split; [apply Htroops|apply Hgold]; reflexivity.
Defined.

(** X18. A player with fewer than 4 troops donates no troops, and a player
    with 4 troops or more offers troops to every ally; with fewer than 4
    troops and less than 4 gold nothing at all is donated. *)
Theorem distributeResourcesToAllies_thresholds :
  forall (w : World) (d : Affairs),
    (Player.troops (player w) < 4 ->
     forall ally amount,
       ~ In (DonateTroops ally amount) (distributeResourcesToAllies w d))
    /\ (4 <= Player.troops (player w) ->
        forall ally,
          In ally (allies d) ->
          In (DonateTroops ally (Qfloor (Player.troops (player w) * (1 # 4))))
             (distributeResourcesToAllies w d))
    /\ (Player.troops (player w) < 4 -> (gold d < 4)%Z ->
        distributeResourcesToAllies w d = []).
Proof.
  intros w d.
  pose proof (quarter_of_troops_positive (Player.troops (player w))) as Hq.
  rewrite distributeResourcesToAllies_flat_map.
  split; [|split].
  - intros Hfew ally amount Hin.
    apply in_flat_map in Hin. destruct Hin as (a & _ & Hc).
    unfold donationsTo in Hc. apply in_app_or in Hc. destruct Hc as [Hc|Hc].
    + destruct (Z.ltb_spec 0 (Qfloor (Player.troops (player w) * (1 # 4))))
        as [Hpos|Hpos]; [|destruct Hc].
      apply Hq in Hpos. lra.
    + destruct (0 <? Z.quot (gold d) 4)%Z; [|destruct Hc].
      destruct Hc as [Hc|[]]. discriminate.
  - intros Hmany ally Hin. apply in_flat_map. exists ally.
    split; [exact Hin|]. unfold donationsTo. apply in_or_app. left.
    destruct (Z.ltb_spec 0 (Qfloor (Player.troops (player w) * (1 # 4))))
      as [Hpos|Hpos]; [left; reflexivity|].
    apply Hq in Hmany. lia.
  - intros Hfew Hpoor.
    assert (Ht : (0 <? Qfloor (Player.troops (player w) * (1 # 4)))%Z = false).
    { destruct (Z.ltb_spec 0 (Qfloor (Player.troops (player w) * (1 # 4))))
        as [Hpos|Hpos]; [|reflexivity].
      apply Hq in Hpos. lra. }
    assert (Hg : (0 <? Z.quot (gold d) 4)%Z = false).
    { apply Z.ltb_ge.
      destruct (Z.le_gt_cases 0 (gold d)) as [Hnn|Hneg].
      - rewrite Z.quot_small; lia.
      - pose proof (Z.quot_opp_l (- gold d) 4 ltac:(lia)) as Hopp.
        rewrite Z.opp_involutive in Hopp.
        pose proof (Z.quot_pos (- gold d) 4 ltac:(lia) ltac:(lia)) as Hnn.
        lia. }
    induction (allies d) as [|ally rest IH]; [reflexivity|].
    cbn [flat_map]. rewrite IH. unfold donationsTo. rewrite Ht, Hg.
    reflexivity.
Qed.

(** [pauper] has 3 troops: whatever its gold, no troops are donated. *)
Lemma distributeResourcesToAllies_thresholds_witness :
  ~ In (DonateTroops comrade 1)
       (distributeResourcesToAllies (worldOf pauper 0 [] []) (affairsOf pauper)).
Proof.
  apply (proj1 (distributeResourcesToAllies_thresholds
                  (worldOf pauper 0 [] []) (affairsOf pauper))).
  simpl. lra.
Defined.

(** ** Construction *)

Lemma firstBuildable_spec (d : Affairs) (unit : UnitType) (ts : list TileRef)
      (tile : TileRef) :
  firstBuildable d unit ts = Some tile
  <-> exists l1 l2,
      ts = l1 ++ tile :: l2
      /\ canBuild d unit tile = true
      /\ Forall (fun t => canBuild d unit t = false) l1.
Proof.
  induction ts as [|t rest IH]; cbn [firstBuildable].
  - split; [discriminate|].
    intros (l1 & l2 & Heq & _). destruct l1; discriminate.
  - destruct (canBuild d unit t) eqn:Hcan.
    + split.
      * intros [= <-]. exists [], rest.
        split; [reflexivity|]. split; [exact Hcan|constructor].
      * intros (l1 & l2 & Heq & Hok & Hall).
        destruct l1 as [|x l1].
        -- injection Heq as <- _. reflexivity.
        -- injection Heq as <- _. inversion Hall as [|? ? Hx _]. congruence.
    + split.
      * intros Hfound. apply IH in Hfound.
        destruct Hfound as (l1 & l2 & -> & Hok & Hall).
        exists (t :: l1), l2. split; [reflexivity|].
        split; [exact Hok|constructor; assumption].
      * intros (l1 & l2 & Heq & Hok & Hall).
        destruct l1 as [|x l1].
        -- injection Heq as <- _. congruence.
        -- injection Heq as <- ->. apply IH. exists l1, l2.
           split; [reflexivity|]. split; [exact Hok|].
           inversion Hall. assumption.
Qed.

Lemma firstBuildable_none (d : Affairs) (unit : UnitType) (ts : list TileRef) :
  firstBuildable d unit ts = None
  <-> Forall (fun t => canBuild d unit t = false) ts.
Proof.
  induction ts as [|t rest IH]; cbn [firstBuildable].
  - split; [constructor|reflexivity].
  - destruct (canBuild d unit t) eqn:Hcan.
    + split; [discriminate|]. intros Hall. inversion Hall. congruence.
    + rewrite IH. split.
      * intros Hall. constructor; assumption.
      * intros Hall. inversion Hall. assumption.
Qed.

Lemma buildUnit_appends (w : World) (d : Affairs) (unit : UnitType)
      (trace : list Call) :
  buildUnit w d unit trace = trace ++ construction w d unit.
Proof.
  unfold buildUnit, construction.
  destruct (firstBuildable d unit (tiles d (player w)));
    [reflexivity|symmetry; apply app_nil_r].
Qed.

Lemma construction_length (w : World) (d : Affairs) (unit : UnitType) :
  (List.length (construction w d unit) <= 1)%nat.
Proof.
  unfold construction.
  destruct (firstBuildable d unit (tiles d (player w))); simpl; lia.
Qed.

(** X19. [buildUnits] leaves the trace it finds in place and adds at most
    five constructions, in the order City, Factory, DefensePost,
    MissileSilo, SAMLauncher: for each type one construction on the first
    owned tile where the player can build it, and none when there is no
    such tile. *)
Theorem buildUnits_first_buildable_tile_each :
  forall (w : World) (d : Affairs) (trace : list Call),
    buildUnits w d trace = trace ++ flat_map (construction w d) buildOrder
    /\ (List.length (flat_map (construction w d) buildOrder) <= 5)%nat
    /\ (forall owner unit tile,
           In (ConstructionExecution owner unit tile)
              (flat_map (construction w d) buildOrder)
           <-> owner = player w
               /\ exists l1 l2,
                   tiles d (player w) = l1 ++ tile :: l2
                   /\ canBuild d unit tile = true
                   /\ Forall (fun t => canBuild d unit t = false) l1)
    /\ (forall unit,
           Forall (fun t => canBuild d unit t = false) (tiles d (player w)) ->
           forall owner tile,
             ~ In (ConstructionExecution owner unit tile)
                  (buildUnits w d [])).
Proof.
  intros w d trace.
  assert (Hall : forall tr,
             buildUnits w d tr = tr ++ flat_map (construction w d) buildOrder).
  { intros tr. unfold buildUnits. rewrite !buildUnit_appends.
    cbn [flat_map buildOrder]. rewrite app_nil_r, <- !app_assoc. reflexivity. }
  assert (Hin : forall owner unit tile,
             In (ConstructionExecution owner unit tile)
                (flat_map (construction w d) buildOrder)
             <-> owner = player w
                 /\ firstBuildable d unit (tiles d (player w)) = Some tile).
  { intros owner unit tile. rewrite in_flat_map. split.
    - intros (u & _ & Hc). unfold construction in Hc.
      destruct (firstBuildable d u (tiles d (player w))) as [t|] eqn:Hf;
        [|destruct Hc].
      destruct Hc as [Heq|[]]. injection Heq as <- <- <-.
      split; [reflexivity|exact Hf].
    - intros [-> Hf]. exists unit. split.
      + destruct unit; cbn [buildOrder In]; tauto.
      + unfold construction. rewrite Hf. left. reflexivity. }
  split; [apply Hall|]. split; [|split].
  - cbn [flat_map buildOrder]. rewrite !length_app.
    pose proof (construction_length w d City).
    pose proof (construction_length w d Factory).
    pose proof (construction_length w d DefensePost).
    pose proof (construction_length w d MissileSilo).
    pose proof (construction_length w d SAMLauncher).
    cbn [List.length]. lia.
  - intros owner unit tile. rewrite Hin, firstBuildable_spec. reflexivity.
  - intros unit Hnone owner tile Hc.
    rewrite Hall in Hc. cbn [app] in Hc. apply Hin in Hc.
    destruct Hc as [_ Hf].
    apply firstBuildable_none in Hnone. congruence.
Qed.

(** [warlord] owns tiles 10, 11 and 12 and can build a City from tile 11
    on: the City goes to tile 11. *)
Lemma buildUnits_first_buildable_tile_each_witness :
  In (ConstructionExecution warlord City 11%Z)
     (flat_map (construction (worldOf warlord 0 [] []) (affairsOf warlord))
               buildOrder).
Proof.
  apply (proj1 (proj2 (proj2 (buildUnits_first_buildable_tile_each
                                (worldOf warlord 0 [] []) (affairsOf warlord)
                                [])))).
  split; [reflexivity|].
  exists [10%Z], [12%Z].
  split; [reflexivity|]. split; [reflexivity|].
  constructor; [reflexivity|constructor].
Defined.

(** ** More worked cases *)

(** [warlord] builds a City on tile 11, a DefensePost on tile 12 and a
    MissileSilo on tile 11, in this order, and nothing else. *)
Example buildUnits_of_warlord :
  buildUnits (worldOf warlord 0 [] []) (affairsOf warlord) []
  = [ConstructionExecution warlord City 11%Z;
     ConstructionExecution warlord DefensePost 12%Z;
     ConstructionExecution warlord MissileSilo 11%Z].
Proof. reflexivity. Qed.

(** [ally] comes first but [warlord] is only neutral to it; [comrade]
    attacks [warlord] itself, then the allied [ally], then [foe]:
    [warlord] drops [raider] for [foe]. *)
Example assistAllies_of_warlord :
  assistAllies 7 (worldOf warlord 50 [] []) (affairsOf warlord)
               (engaged [] raider)
  = ([UpdateRelation comrade (-20); EmojiExecution warlord "comrade"%string 7],
     setNewEnemy (worldOf warlord 50 [] []) (Some foe) (engaged [] raider)).
Proof. reflexivity. Qed.

(** 83 troops and 1003 gold: each of the two allies is offered 20 troops
    and 250 gold. *)
Example distributeResourcesToAllies_of_warlord :
  distributeResourcesToAllies (worldOf warlord 0 [] []) (affairsOf warlord)
  = [DonateTroops ally 20; DonateGold ally 250;
     DonateTroops comrade 20; DonateGold comrade 250].
Proof. reflexivity. Qed.

(** The answers of [nation] to [foe], [giant] and [turncoat] *)
Example handleAllianceRequests_of_nation :
  handleAllianceRequests (worldWith 0 [] []) (affairsOf nation)
  = [Reject (mkAllianceRequest foe); Accept (mkAllianceRequest giant);
     Reject (mkAllianceRequest turncoat)].
Proof. reflexivity. Qed.

(** A player without tiles is at distance [Infinity] from everybody. *)
Example minDistanceBetweenPlayers_without_tiles :
  minDistanceBetweenPlayers (affairsOf warlord) warlord raider
  = Num.PosInfinity.
Proof. reflexivity. Qed.
